(** * The HoloViews tutorial notebooks as straight-line Python scripts

    The repository holds two Jupyter notebooks,
    [notebooks/05-working-with-tabular-data.ipynb] and
    [notebooks/09-working-with-large-datasets.ipynb].  Their code cells are
    short Python scripts over pandas, dask, HoloViews, datashader, GeoViews
    and Bokeh.  This development transcribes every code cell into an abstract
    syntax tree that follows Python's [ast] module, gives the fragment of
    Python the cells use an executable semantics that is parametric in the
    external libraries, and proves what the cells do and do not contain. *)

From stdpp Require Import gmap strings list.
From Stdlib Require Import ZArith Sorted.

Local Open Scope string_scope.
Local Open Scope list_scope.
Local Set Warnings "-register-all".

(** ** Syntax: the nodes of Python's [ast] that a code cell may hold *)

Module Py.

(** Binary operators ([ast.operator]). *)
Inductive binop : Type := Add | Sub | Mult | Div | Mod.

(** Expressions ([ast.expr]).  The last four forms never occur in the
    notebooks; they are here so that their absence is a checked fact. *)
Inductive expr : Type :=
| EName (id : string)
| EStr (s : string)
| ENum (n : Z)
| ENone
| EBool (b : bool)
| EList (elts : list expr)
| ETuple (elts : list expr)
| EAttribute (value : expr) (attr : string)
| ECall (func : expr) (args : list expr) (keywords : list (string * expr))
| EBinOp (left : expr) (op : binop) (right : expr)
| EDict (items : list (expr * expr))
| ELambda (params : list string) (body : expr)
| EIfExp (test body orelse : expr)
| EListComp (elt : expr) (target : string) (iter : expr).

(** Assignment targets. *)
Inductive target : Type :=
| TName (id : string)
| TAttribute (value : expr) (attr : string)
| TSubscript (value index : expr).

(** Statements ([ast.stmt]) and IPython magics.  [SMagic true] is a cell
    magic ([%%opts ...]), [SMagic false] a line magic ([%opts ...]); the text
    after the magic's name is kept as it is written and is the library's to
    read.  A cell magic stands before the statements of its cell. *)
Inductive stmt : Type :=
| SImport (module : string) (asname : option string)
| SImportFrom (module : string) (names : list string)
| SAssign (tgt : target) (value : expr)
| SAugAssign (tgt : target) (op : binop) (value : expr)
| SExpr (value : expr)
| SMagic (cell : bool) (name : string) (line : string)
| SDelete (tgt : target)
| SRaise (exc : expr)
| SIf (test : expr) (body orelse : list stmt)
| SFor (tgt : string) (iter : expr) (body : list stmt)
| SWhile (test : expr) (body : list stmt)
| STry (body handler : list stmt)
| SWith (ctx : expr) (body : list stmt)
| SFunctionDef (name : string) (params : list string) (body : list stmt)
| SClassDef (name : string) (bases : list expr) (body : list stmt).

(** A cell of a notebook.  A code cell lists its statements with the line of
    the [.ipynb] file each one stands on; comment lines are not statements. *)
Inductive cell : Type :=
| Markdown
| Code (source : list (nat * stmt)).

Definition notebook : Type := list cell.

Definition cell_source (c : cell) : list (nat * stmt) :=
  match c with Markdown => [] | Code src => src end.

(** The statements of a notebook in textual order. *)
Definition program (nb : notebook) : list (nat * stmt) :=
  concat (map cell_source nb).

Definition stmts (nb : notebook) : list stmt := map snd (program nb).
Definition lines (nb : notebook) : list nat := map fst (program nb).

(** Shorthands used to write the cells down. *)
Definition call (f : expr) (args : list expr) : expr := ECall f args [].
Definition method (recv : expr) (name : string) (args : list expr)
    (kw : list (string * expr)) : expr :=
  ECall (EAttribute recv name) args kw.
Definition strs (l : list string) : expr := EList (map EStr l).
Definition assign (x : string) (e : expr) : stmt := SAssign (TName x) e.

End Py.
Import Py.

(** The double-quote character, for the one magic line that contains it. *)
Definition dq : string := String (Ascii.ascii_of_nat 34) EmptyString.

(** ** notebooks/05-working-with-tabular-data.ipynb *)

Definition nb05_working_with_tabular_data : notebook :=
  [ Markdown; Markdown;
    Code [ (26, SImport "numpy" (Some "np"));
           (27, SImport "scipy.stats" (Some "ss"));
           (28, SImport "pandas" (Some "pd"));
           (29, SImport "holoviews" (Some "hv"));
           (30, SExpr (call (EAttribute (EName "hv") "extension") [EStr "bokeh"]));
           (31, SMagic false "opts" "Curve Scatter [tools=['hover']]") ];
    Markdown;
    Code [ (47, assign "macro_df"
                  (call (EAttribute (EName "pd") "read_csv") [EStr "../data/macro.csv"]));
           (48, SExpr (method (EName "macro_df") "head" [] [])) ];
    Markdown; Markdown; Markdown;
    Code [ (80, assign "macro"
                  (ECall (EAttribute (EName "hv") "Dataset") [EName "macro_df"]
                     [("kdims", strs ["country"; "year"])]));
           (81, SExpr (EName "macro")) ];
    Markdown;
    Code [ (97, assign "macro"
                  (method (EAttribute (EName "macro") "redim") "label" []
                     [("growth", EStr "GDP Growth"); ("unem", EStr "Unemployment");
                      ("year", EStr "Year"); ("country", EStr "Country")])) ];
    Markdown; Markdown; Markdown;
    Code [ (137, assign "curves"
                   (method (EName "macro") "to" [EAttribute (EName "hv") "Curve"]
                      [("kdims", EStr "year"); ("vdims", EStr "unem");
                       ("groupby", EStr "country")]));
           (138, SExpr (call (EName "print") [EName "curves"]));
           (139, SExpr (EName "curves")) ];
    Markdown;
    Code [ (157, SMagic true "opts" "Bars [width=600 xrotation=45]");
           (158, assign "bars"
                   (method (method (EName "macro") "sort" [EStr "country"] []) "to"
                      [EAttribute (EName "hv") "Bars"]
                      [("kdims", EStr "country"); ("vdims", EStr "unem")]));
           (159, SExpr (EName "bars")) ];
    Code [];
    Code [];
    Markdown;
    Code [ (195, SMagic true "opts"
                   "BoxWhisker [width=800 xrotation=30] (box_fill_color=Palette('Category20'))");
           (196, SExpr (method (EName "macro") "to"
                          [EAttribute (EName "hv") "BoxWhisker"; EStr "country"; EStr "growth"]
                          [("groupby", EList [])]));
           (198, SExpr (ECall (EAttribute (EName "hv") "BoxWhisker") [EName "macro"]
                          [("kdims", strs ["country"]); ("vdims", strs ["growth"])])) ];
    Code [];
    Markdown;
    Code [ (225, SMagic true "opts"
                   "Scatter [width=800 height=400 size_index='growth'] (color=Palette('Category20') size=5)");
           (226, SMagic true "opts" "NdOverlay [legend_position='left']");
           (227, SExpr (method
                          (method
                             (method (EName "macro") "to"
                                [EAttribute (EName "hv") "Scatter"; EStr "year";
                                 strs ["unem"; "growth"]] [])
                             "overlay" [] [])
                          "relabel" [EStr "OECD Unemployment 1960 - 1990"] [])) ];
    Code [];
    Code [];
    Code [];
    Markdown; Markdown;
    Code [ (278, SMagic true "opts" "Curve [width=600]");
           (279, assign "agg"
                   (method (EName "macro") "aggregate" [EStr "year"]
                      [("function", EAttribute (EName "np") "mean");
                       ("spreadfn", EAttribute (EName "np") "std")]));
           (280, SExpr (EBinOp
                          (call (EAttribute (EName "hv") "Curve") [EName "agg"])
                          Mult
                          (ECall (EAttribute (EName "hv") "ErrorBars") [EName "agg"]
                             [("kdims", strs ["year"]);
                              ("vdims", strs ["growth"; "growth_std"])]))) ];
    Code [];
    Code [ (301, SMagic true "opts" "Bars [width=600 xrotation=45]");
           (302, assign "agg"
                   (method (EName "macro") "aggregate" [EStr "country"]
                      [("function", EAttribute (EName "np") "mean");
                       ("spreadfn", EAttribute (EName "ss") "sem")]));
           (303, SExpr (call (EAttribute (EName "hv") "Bars") [EName "agg"])) ];
    Code [];
    Code [];
    Markdown ].

(** ** notebooks/09-working-with-large-datasets.ipynb *)

Definition nb09_working_with_large_datasets : notebook :=
  [ Markdown; Markdown; Markdown; Markdown;
    Code [ (63, SImport "pandas" (Some "pd"));
           (64, SImport "holoviews" (Some "hv"));
           (65, SImport "dask.dataframe" (Some "dd"));
           (66, SImport "datashader" (Some "ds"));
           (67, SImport "geoviews" (Some "gv"));
           (69, SImportFrom "holoviews.operation.datashader" ["datashade"; "aggregate"]);
           (70, SExpr (call (EAttribute (EName "hv") "extension") [EStr "bokeh"])) ];
    Markdown; Markdown; Markdown;
    Code [ (104, assign "ddf"
                   (method
                      (call (EAttribute (EName "dd") "read_parquet")
                         [EStr "../data/nyc_taxi_hours.parq/"])
                      "persist" [] []));
           (106, SExpr (call (EName "print")
                          [EBinOp (EStr "%s Rows") Mod (call (EName "len") [EName "ddf"])]));
           (107, SExpr (call (EName "print")
                          [EStr "Columns:";
                           call (EName "list") [EAttribute (EName "ddf") "columns"]])) ];
    Markdown;
    Code [ (127, assign "points"
                   (ECall (EAttribute (EName "hv") "Points") [EName "ddf"]
                      [("kdims", strs ["dropoff_x"; "dropoff_y"])])) ];
    Markdown;
    Code [ (143, SMagic false "opts"
                   ("RGB [width=600 height=500 bgcolor=" ++ dq ++ "black" ++ dq ++ "]"));
           (144, SExpr (call (EName "datashade") [EName "points"])) ];
    Markdown;
    Code [ (160, SExpr (EAttribute (EName "datashade") "streams")) ];
    Code [ (175, SImportFrom "datashader.colors" ["inferno"]) ];
    Markdown; Markdown;
    Code [ (198, SMagic false "opts" "RGB [xaxis=None yaxis=None]");
           (199, SImport "geoviews" (Some "gv"));
           (200, SImportFrom "bokeh.models" ["WMTSTileSource"]);
           (201, assign "url"
                   (EStr "https://server.arcgisonline.com/ArcGIS/rest/services/World_Imagery/MapServer/tile/{Z}/{Y}/{X}.jpg"));
           (202, assign "wmts" (ECall (EName "WMTSTileSource") [] [("url", EName "url")]));
           (203, SExpr (EBinOp
                          (call (EAttribute (EName "gv") "WMTS") [EName "wmts"])
                          Mult
                          (call (EName "datashade") [EName "points"]))) ];
    Code [ (216, assign "wiki_url"
                   (EStr "https://maps.wikimedia.org/osm-intl/{Z}/{X}/{Y}@2x.png")) ];
    Markdown; Markdown;
    Code [ (239, assign "selected"
                   (method (EName "points") "select" []
                      [("fare_amount", ETuple [ENone; ENum 1000])]));
           (240, SAssign (TAttribute (EName "selected") "data")
                   (method (EAttribute (EName "selected") "data") "persist" [] []));
           (241, SExpr (EBinOp
                          (call (EAttribute (EName "gv") "WMTS") [EName "wmts"])
                          Mult
                          (ECall (EName "datashade") [EName "selected"]
                             [("aggregator",
                               call (EAttribute (EName "ds") "mean") [EStr "fare_amount"])]))) ];
    Code [];
    Markdown;
    Code [ (271, SMagic false "opts"
                   "Image [width=600 height=500 logz=True xaxis=None yaxis=None]");
           (272, assign "taxi_ds" (call (EAttribute (EName "hv") "Dataset") [EName "ddf"]));
           (273, assign "grouped"
                   (method (EName "taxi_ds") "to"
                      [EAttribute (EName "hv") "Points"; strs ["dropoff_x"; "dropoff_y"]]
                      [("groupby", strs ["dropoff_hour"]); ("dynamic", EBool true)]));
           (274, SExpr (method
                          (EAttribute (call (EName "aggregate") [EName "grouped"]) "redim")
                          "values" []
                          [("dropoff_hour", call (EName "range") [ENum 24])])) ];
    Code [];
    Markdown; Markdown;
    Code [ (309, SMagic true "opts"
                   "QuadMesh [width=800 height=400 tools=['hover']] (alpha=0 hover_line_alpha=1 hover_fill_alpha=0)");
           (310, assign "hover_info"
                   (method
                      (ECall (EName "aggregate") [EName "points"]
                         [("width", ENum 40); ("height", ENum 20);
                          ("streams",
                           EList [EAttribute (EAttribute (EName "hv") "streams") "RangeXY"])])
                      "map"
                      [EAttribute (EName "hv") "QuadMesh"; EAttribute (EName "hv") "Image"] []));
           (311, SExpr (EBinOp
                          (EBinOp
                             (call (EAttribute (EName "gv") "WMTS") [EName "wmts"])
                             Mult
                             (call (EName "datashade") [EName "points"]))
                          Mult
                          (EName "hover_info"))) ];
    Markdown ].

Definition notebooks : list notebook :=
  [nb05_working_with_tabular_data; nb09_working_with_large_datasets].

(** ** Reading a cell: subexpressions, names, nested blocks *)

(** Every expression occurring in [e], [e] first, in evaluation order. *)
Fixpoint subexprs (e : expr) : list expr :=
  e :: match e with
       | EName _ | EStr _ | ENum _ | ENone | EBool _ => []
       | EList es | ETuple es => flat_map subexprs es
       | EAttribute v _ => subexprs v
       | ECall f args kw =>
           subexprs f ++ flat_map subexprs args
             ++ flat_map (fun p => subexprs (snd p)) kw
       | EBinOp l _ r => subexprs l ++ subexprs r
       | EDict items =>
           flat_map (fun p => subexprs (fst p) ++ subexprs (snd p)) items
       | ELambda _ b => subexprs b
       | EIfExp c t f => subexprs c ++ subexprs t ++ subexprs f
       | EListComp elt _ it => subexprs elt ++ subexprs it
       end.

Definition target_exprs (t : target) : list expr :=
  match t with
  | TName _ => []
  | TAttribute v _ => [v]
  | TSubscript v i => [v; i]
  end.

(** A statement together with every statement nested in its blocks. *)
Fixpoint substmts (s : stmt) : list stmt :=
  s :: match s with
       | SIf _ b o => flat_map substmts b ++ flat_map substmts o
       | SFor _ _ b | SWhile _ b | SWith _ b
       | SFunctionDef _ _ b | SClassDef _ _ b => flat_map substmts b
       | STry b h => flat_map substmts b ++ flat_map substmts h
       | _ => []
       end.

(** The expressions a statement holds itself (not those of nested blocks). *)
Definition own_exprs (s : stmt) : list expr :=
  match s with
  | SAssign t v | SAugAssign t _ v => v :: target_exprs t
  | SExpr v | SRaise v => [v]
  | SDelete t => target_exprs t
  | SIf c _ _ | SWhile c _ | SWith c _ => [c]
  | SFor _ it _ => [it]
  | SClassDef _ bases _ => bases
  | SImport _ _ | SImportFrom _ _ | SMagic _ _ _ | STry _ _
  | SFunctionDef _ _ _ => []
  end.

(** All expressions of a statement, nested blocks and subexpressions included. *)
Definition stmt_exprs (s : stmt) : list expr :=
  flat_map subexprs (flat_map own_exprs (substmts s)).

Definition expr_of_name (e : expr) : option string :=
  match e with EName x => Some x | _ => None end.

(** The names a statement reads. *)
Definition uses (s : stmt) : list string :=
  omap expr_of_name (stmt_exprs s).

(** The full stop that separates the components of a module path. *)
Definition dot : Ascii.ascii := Ascii.ascii_of_nat 46.

(** The first component of a dotted module path: [scipy.stats] gives [scipy]. *)
Fixpoint module_root (m : string) : string :=
  match m with
  | EmptyString => EmptyString
  | String c m' =>
      if Ascii.eqb c dot then EmptyString else String c (module_root m')
  end.

(** The names a statement binds in the notebook's namespace. *)
Definition binds (s : stmt) : list string :=
  match s with
  | SImport m (Some a) => [a]
  | SImport m None => [module_root m]
  | SImportFrom _ ns => ns
  | SAssign (TName x) _ | SAugAssign (TName x) _ _ => [x]
  | SFor x _ _ | SFunctionDef x _ _ | SClassDef x _ _ => [x]
  | _ => []
  end.

(** The Python builtins the notebooks call. *)
Definition builtins : list string := ["print"; "len"; "list"; "range"].

(** ** Semantics: running a cell against the external libraries

    The notebooks own no data structure: every object they handle is made and
    interpreted by a library.  A value is therefore a literal or a reference
    to an object, and what importing, attribute access, calling, operators and
    magics do is a parameter of the semantics, the [library].  What the
    notebook itself does is fixed by Python and IPython: it evaluates
    expressions in order, binds names, stores attributes and lets exceptions
    escape; a cell that starts with a cell magic is handed to that magic. *)

Inductive value : Type :=
| VNone
| VBool (b : bool)
| VInt (n : Z)
| VStr (s : string)
| VList (vs : list value)
| VTuple (vs : list value)
| VObj (l : nat).

(** A Python exception: its class name and its message. *)
Record exn : Type := Exn { exn_class : string; exn_msg : string }.

(** The outcome of a step: a result [a] or an exception [e], and the state
    the step leaves behind either way. *)
Inductive result (S A : Type) : Type :=
| Ok (a : A) (s : S)
| Exc (e : exn) (s : S).
Arguments Ok {S A} a s.
Arguments Exc {S A} e s.

(** Memory: the attributes stored on objects by assignment (their instance
    dictionaries), and the libraries' own world [W] (files, caches, global
    options, the output area). *)
Record mem (W : Type) : Type := Mem {
  heap : gmap (nat * string) value;
  world : W
}.
Arguments Mem {W} heap world.
Arguments heap {W} m.
Arguments world {W} m.

(** What a cell magic answers once it has read its text: the shell is to run
    the rest of the cell, or the cell is left unrun. *)
Inductive verdict : Type := RunCell | SkipCell.

(** The external libraries and the Python runtime, as the notebooks see them.
    A magic belongs to the library that registers it ([opts] to the plotting
    library).  IPython hands it the text after its name and, for a cell magic,
    the rest of the cell; through the shell it can read the namespace.  For a
    line magic the rest is empty and the answer is not used. *)
Record library (W : Type) : Type := Library {
  lib_builtin : string -> option value;
  lib_import : string -> mem W -> result (mem W) value;
  lib_getattr : value -> string -> mem W -> result (mem W) value;
  lib_call : value -> list value -> list (string * value) -> mem W
             -> result (mem W) value;
  lib_binop : binop -> value -> value -> mem W -> result (mem W) value;
  lib_magic : bool -> string -> string -> list (nat * stmt) -> gmap string value
              -> mem W -> result (mem W) verdict
}.
Arguments lib_builtin {W} l x.
Arguments lib_import {W} l m.
Arguments lib_getattr {W} l v a.
Arguments lib_call {W} l f args kw.
Arguments lib_binop {W} l op a b.
Arguments lib_magic {W} l cell name line body ns.

(** What the output area holds about a cell that was handed to a cell
    magic: the traceback the shell shows for an exception raised in it, or
    the magic's word that it leaves the cell unrun. *)
Inductive notice : Type :=
| Traceback (e : exn)
| Declined.

(** The namespace, the memory, the lines executed so far and the notices
    shown so far (oldest first), each notice with the line of its cell
    magic. *)
Record state (W : Type) : Type := State {
  env : gmap string value;
  memory : mem W;
  trace : list nat;
  shown : list (nat * notice)
}.
Arguments State {W} env memory trace shown.
Arguments env {W} s.
Arguments memory {W} s.
Arguments trace {W} s.
Arguments shown {W} s.

(** Computations over a state [S]: [None] marks a construct outside the
    modelled fragment (loops, definitions, ...), which no notebook reaches. *)
Definition comp (S A : Type) : Type := S -> option (result S A).

Definition ret {S A} (a : A) : comp S A := fun s => Some (Ok a s).
Definition raise {S A} (e : exn) : comp S A := fun s => Some (Exc e s).
Definition unsupported {S A} : comp S A := fun _ => None.
Definition external {S A} (f : S -> result S A) : comp S A := fun s => Some (f s).

Definition bind {S A B} (c : comp S A) (k : A -> comp S B) : comp S B :=
  fun s => match c s with
           | Some (Ok a s') => k a s'
           | Some (Exc e s') => Some (Exc e s')
           | None => None
           end.

Notation "x <- c ;; k" := (bind c (fun x => k))
  (at level 100, c at next level, right associativity).

(** Left-to-right evaluation of a list. *)
Definition mapM {S A B} (f : A -> comp S B) : list A -> comp S (list B) :=
  fix go l :=
    match l with
    | [] => ret []
    | a :: l' => b <- f a;; bs <- go l';; ret (b :: bs)
    end.

(** A block: its statements one after the other. *)
Definition block {S A} (f : A -> comp S unit) : list A -> comp S unit :=
  fix go l :=
    match l with
    | [] => ret tt
    | a :: l' => _ <- f a;; go l'
    end.

(** ** Cells that start with a cell magic

    A code cell whose first line is a cell magic is not run by the kernel
    statement by statement: the whole cell goes to the magic.  [%%opts] takes
    every further line of the cell that starts with [%%opts] as more of its
    own text (line 226 of notebook 05) and has the shell run what is left. *)

(** The cell magic a code cell starts with: its line, its name, its text and
    the rest of the cell. *)
Definition magic_head (c : cell)
    : option (nat * string * string * list (nat * stmt)) :=
  match c with
  | Code ((ln, SMagic true n l) :: body) => Some (ln, n, l, body)
  | _ => None
  end.

(** A line that starts with the cell magic [n] again. *)
Definition continues (n : string) (s : stmt) : bool :=
  match s with
  | SMagic true n' _ => String.eqb n n'
  | _ => false
  end.

(** The code a cell magic is left with. *)
Definition magic_code (n : string) (body : list (nat * stmt)) : list (nat * stmt) :=
  List.filter (fun ls => negb (continues n (snd ls))) body.

(** The statements of a cell that are executed as Python. *)
Definition cell_code (c : cell) : list (nat * stmt) :=
  match magic_head c with
  | Some (_, n, _, body) => magic_code n body
  | None => cell_source c
  end.

Definition code_stmts (c : cell) : list stmt := map snd (cell_code c).

Section Semantics.
Context {W : Type} (L : library W).

(** [o.a]: the instance dictionary first, the object's class otherwise. *)
Definition getattr (v : value) (a : string) : comp (mem W) value :=
  fun m =>
    match v with
    | VObj l =>
        match heap m !! (l, a) with
        | Some v' => Some (Ok v' m)
        | None => Some (lib_getattr L v a m)
        end
    | _ => Some (lib_getattr L v a m)
    end.

(** [o.a = v]: a store into the instance dictionary of [o].  A value that
    is no object takes no attribute.  (For such a value Python already
    refuses to read [o.a]; here a read is the runtime's, in [lib_getattr].) *)
Definition setattr (o : value) (a : string) (v : value) : comp (mem W) unit :=
  fun m =>
    match o with
    | VObj l => Some (Ok tt (Mem (<[(l, a) := v]> (heap m)) (world m)))
    | _ => Some (Exc (Exn "AttributeError" a) m)
    end.

Definition lookup_name (rho : gmap string value) (x : string) : comp (mem W) value :=
  match rho !! x with
  | Some v => ret v
  | None =>
      match lib_builtin L x with
      | Some v => ret v
      | None => raise (Exn "NameError" x)
      end
  end.

Fixpoint eval (e : expr) (rho : gmap string value) {struct e} : comp (mem W) value :=
  match e with
  | EName x => lookup_name rho x
  | EStr s => ret (VStr s)
  | ENum n => ret (VInt n)
  | ENone => ret VNone
  | EBool b => ret (VBool b)
  | EList es => vs <- mapM (fun e' => eval e' rho) es;; ret (VList vs)
  | ETuple es => vs <- mapM (fun e' => eval e' rho) es;; ret (VTuple vs)
  | EAttribute o a => v <- eval o rho;; getattr v a
  | ECall f args kw =>
      fv <- eval f rho;;
      vs <- mapM (fun e' => eval e' rho) args;;
      kvs <- mapM (fun p => let '(k, e') := p in v <- eval e' rho;; ret (k, v)) kw;;
      external (lib_call L fv vs kvs)
  | EBinOp l op r =>
      lv <- eval l rho;; rv <- eval r rho;; external (lib_binop L op lv rv)
  | EDict _ | ELambda _ _ | EIfExp _ _ _ | EListComp _ _ _ => unsupported
  end.

(** A computation on the memory, run inside a state. *)
Definition on_mem {A} (c : comp (mem W) A) : comp (state W) A :=
  fun s =>
    match c (memory s) with
    | Some (Ok a m) => Some (Ok a (State (env s) m (trace s) (shown s)))
    | Some (Exc e m) => Some (Exc e (State (env s) m (trace s) (shown s)))
    | None => None
    end.

Definition eval_in (e : expr) : comp (state W) value :=
  fun s => on_mem (eval e (env s)) s.

Definition bind_name (x : string) (v : value) : comp (state W) unit :=
  fun s => Some (Ok tt (State (<[x := v]> (env s)) (memory s) (trace s) (shown s))).

Definition import_module (m : string) : comp (state W) value :=
  on_mem (external (lib_import L m)).

(** Calling a magic: the library gets its text, the rest of the cell and the
    namespace as it is now. *)
Definition magic (c : bool) (n l : string) (body : list (nat * stmt))
    : comp (state W) verdict :=
  fun s => on_mem (external (lib_magic L c n l body (env s))) s.

(** A statement.  A line magic is a call like any other.  A cell magic is
    no statement: it takes its whole cell, see [run_cell]; what IPython
    makes of one further down a cell depends on its version and is left
    outside the fragment. *)
Fixpoint exec (s : stmt) {struct s} : comp (state W) unit :=
  match s with
  | SImport m (Some a) => v <- import_module m;; bind_name a v
  | SImport m None =>
      _ <- import_module m;;
      v <- import_module (module_root m);;
      bind_name (module_root m) v
  | SImportFrom m ns =>
      md <- import_module m;;
      block (fun n => v <- on_mem (getattr md n);; bind_name n v) ns
  | SAssign (TName x) e => v <- eval_in e;; bind_name x v
  | SAssign (TAttribute o a) e =>
      v <- eval_in e;; ov <- eval_in o;; on_mem (setattr ov a v)
  | SExpr e => _ <- eval_in e;; ret tt
  | SMagic false n l => _ <- magic false n l [];; ret tt
  | STry body handler =>
      fun st =>
        match block exec body st with
        | Some (Exc _ st') => block exec handler st'
        | r => r
        end
  | _ => unsupported
  end.

(** A statement is logged with its line when it starts. *)
Definition log (ln : nat) : comp (state W) unit :=
  fun s => Some (Ok tt (State (env s) (memory s) (trace s ++ [ln]) (shown s))).

Definition step (ls : nat * stmt) : comp (state W) unit :=
  _ <- log (fst ls);; exec (snd ls).

(** Running a piece of code: its statements top to bottom; the first
    exception ends it.  The value of an expression statement is dropped
    here; rendering it in the output area is the front end's business. *)
Definition run (p : list (nat * stmt)) : comp (state W) unit := block step p.

Definition note (ln : nat) (n : notice) : comp (state W) unit :=
  fun s => Some (Ok tt (State (env s) (memory s) (trace s) (shown s ++ [(ln, n)]))).

(** The shell as a cell magic calls it (IPython's [shell.run_cell], from
    inside the magic): the code is run, an exception in it ends the code and
    is shown as a traceback, and the call returns to the magic without
    raising. *)
Definition in_shell (ln : nat) (c : comp (state W) unit) : comp (state W) unit :=
  fun s =>
    match c s with
    | Some (Exc e s') => note ln (Traceback e) s'
    | r => r
    end.

(** Running a cell of the notebook.  A cell that starts with a cell magic is
    one call of the magic, which may raise; when it answers [RunCell] the
    shell runs the rest of the cell for it.  Any other cell is run as it
    stands; a markdown cell holds no code. *)
Definition run_cell (c : cell) : comp (state W) unit :=
  match magic_head c with
  | Some (ln, n, l, body) =>
      _ <- log ln;;
      v <- magic true n l body;;
      match v with
      | RunCell => in_shell ln (run (magic_code n body))
      | SkipCell => note ln Declined
      end
  | None => run (cell_source c)
  end.

(** "Run All": the cells top to bottom; the first cell that ends with an
    exception ends the run. *)
Definition run_all (nb : notebook) : comp (state W) unit := block run_cell nb.

Definition initial (w : W) : state W := State ∅ (Mem ∅ w) [] [].

End Semantics.

(** ** Small libraries to run the notebooks against

    [toy] makes a new object for every import, attribute, call and operator;
    its world is the next free object number; its magics have every cell
    run.  [toy_no_data] is [toy] on a machine without the sample data: a call
    whose first argument is a path under [../data/] raises
    [FileNotFoundError].  [toy_no_boxwhisker] is [toy] with a plotting
    library that has no [BoxWhisker] element. *)

Definition fresh {A} (f : nat -> A) (m : mem nat) : result (mem nat) A :=
  Ok (f (world m)) (Mem (heap m) (S (world m))).

Definition toy_builtin (x : string) : option value :=
  (fun i => VObj i) <$> list_find (String.eqb x) builtins ≫= (fun p => Some (fst p)).

Definition toy : library nat :=
  {| lib_builtin := toy_builtin;
     lib_import := fun _ => fresh VObj;
     lib_getattr := fun _ _ => fresh VObj;
     lib_call := fun _ _ _ => fresh VObj;
     lib_binop := fun _ _ _ => fresh VObj;
     lib_magic := fun _ _ _ _ _ m => Ok RunCell m |}.

Definition data_dir : string := "../data/".

Definition toy_no_data : library nat :=
  {| lib_builtin := toy_builtin;
     lib_import := fun _ => fresh VObj;
     lib_getattr := fun _ _ => fresh VObj;
     lib_call := fun _ args _ m =>
       match args with
       | VStr path :: _ =>
           if String.prefix data_dir path
           then Exc (Exn "FileNotFoundError" path) m
           else fresh VObj m
       | _ => fresh VObj m
       end;
     lib_binop := fun _ _ _ => fresh VObj;
     lib_magic := fun _ _ _ _ _ m => Ok RunCell m |}.

Definition toy_no_boxwhisker : library nat :=
  {| lib_builtin := toy_builtin;
     lib_import := fun _ => fresh VObj;
     lib_getattr := fun _ a m =>
       if String.eqb a "BoxWhisker"
       then Exc (Exn "AttributeError" a) m
       else fresh VObj m;
     lib_call := fun _ _ _ => fresh VObj;
     lib_binop := fun _ _ _ => fresh VObj;
     lib_magic := fun _ _ _ _ _ m => Ok RunCell m |}.

(** A library that also keeps a record of every exception it raises: the
    world of [logged L] is the world of [L] with that record (oldest first).
    It behaves as [L] does; the record is what "an exception raised by a
    library call" means below. *)

Definition inner {W} (m : mem (W * list exn)) : mem W :=
  Mem (heap m) (fst (world m)).

Definition raised {W} (m : mem (W * list exn)) : list exn := snd (world m).

Definition recording {W A} (f : mem W -> result (mem W) A)
    (m : mem (W * list exn)) : result (mem (W * list exn)) A :=
  match f (inner m) with
  | Ok a m' => Ok a (Mem (heap m') (world m', raised m))
  | Exc e m' => Exc e (Mem (heap m') (world m', raised m ++ [e]))
  end.

Definition logged {W} (L : library W) : library (W * list exn) :=
  {| lib_builtin := lib_builtin L;
     lib_import := fun md => recording (lib_import L md);
     lib_getattr := fun v a => recording (lib_getattr L v a);
     lib_call := fun f args kw => recording (lib_call L f args kw);
     lib_binop := fun op a b => recording (lib_binop L op a b);
     lib_magic := fun c n l body ns => recording (lib_magic L c n l body ns) |}.

(** ** What a statement is: the shapes the specification names *)

(** Statements that carry a block of their own: conditionals, loops, handlers,
    context managers, function and class definitions. *)
Definition compound (s : stmt) : bool :=
  match s with
  | SIf _ _ _ | SFor _ _ _ | SWhile _ _ | STry _ _ | SWith _ _
  | SFunctionDef _ _ _ | SClassDef _ _ _ => true
  | _ => false
  end.

(** Expressions that compute on their own: anonymous functions, conditional
    expressions, comprehensions, dictionary displays. *)
Definition computing (e : expr) : bool :=
  match e with
  | ELambda _ _ | EIfExp _ _ _ | EListComp _ _ _ | EDict _ => true
  | _ => false
  end.

(** A statement that defines a function, class, loop, conditional or data
    structure, at any depth. *)
Definition defines_original (s : stmt) : bool :=
  existsb compound (substmts s) || existsb computing (stmt_exprs s).

Fixpoint is_literal (e : expr) : bool :=
  match e with
  | EStr _ | ENum _ | ENone | EBool _ => true
  | EList es | ETuple es => forallb is_literal es
  | _ => false
  end.

(** A call or an operator application. *)
Definition is_application (e : expr) : bool :=
  match e with
  | ECall _ _ _ | EBinOp _ _ _ => true
  | _ => false
  end.

(** A name, or an attribute path that starts at a name. *)
Fixpoint is_reference (e : expr) : bool :=
  match e with
  | EName _ => true
  | EAttribute v _ => is_reference v
  | _ => false
  end.

Inductive kind : Type :=
| Imports          (* import m as a; from m import n *)
| BindsLiteral     (* x = 'text' *)
| AppliesExternal  (* a call or operator, alone or assigned *)
| Displays         (* a bare name or attribute, shown as the cell's output *)
| OptsMagic        (* %opts / %%opts *)
| Other.

#[global] Instance kind_eq_dec : EqDecision kind.
Proof. solve_decision. Defined.

Definition kind_of (s : stmt) : kind :=
  match s with
  | SImport _ _ | SImportFrom _ _ => Imports
  | SAssign (TName _) e =>
      if is_literal e then BindsLiteral
      else if is_application e then AppliesExternal else Other
  | SAssign (TAttribute _ _) e =>
      if is_application e then AppliesExternal else Other
  | SExpr e =>
      if is_application e then AppliesExternal
      else if is_reference e then Displays else Other
  | SMagic _ name _ => if String.eqb name "opts" then OptsMagic else Other
  | _ => Other
  end.

(** The three kinds the specification lists. *)
Definition spec_kinds : list kind := [Imports; BindsLiteral; AppliesExternal].

(** The kinds the notebooks are made of. *)
Definition notebook_kinds : list kind :=
  [Imports; BindsLiteral; AppliesExternal; Displays; OptsMagic].

(** Every name read is bound by an earlier statement or is in [bound]. *)
Fixpoint scoped (bound : list string) (p : list stmt) : bool :=
  match p with
  | [] => true
  | s :: p' =>
      forallb (fun x => bool_decide (x ∈ bound)) (uses s)
      && scoped (binds s ++ bound) p'
  end.


(** ** Error handling, inputs, concurrency, mutation: what to look for *)

(** Statements that catch, translate or define failures. *)
Definition handles_failure (s : stmt) : bool :=
  match s with
  | STry _ _ | SRaise _ | SWith _ _ | SClassDef _ _ _ => true
  | _ => false
  end.

Definition failure_handlers (nb : notebook) : list stmt :=
  filter (fun s => handles_failure s) (flat_map substmts (stmts nb)).

(** The modules a notebook imports, in order. *)
Definition imported_module (s : stmt) : option string :=
  match s with
  | SImport m _ | SImportFrom m _ => Some m
  | _ => None
  end.

Definition imports (nb : notebook) : list string :=
  omap imported_module (flat_map substmts (stmts nb)).

(** The names bound by an import. *)
Definition imported_names (nb : notebook) : list string :=
  flat_map (fun s => match imported_module s with Some _ => binds s | None => [] end)
    (stmts nb).

(** The names bound by an assignment. *)
Definition assigned_names (nb : notebook) : list string :=
  flat_map (fun s => match imported_module s with Some _ => [] | None => binds s end)
    (stmts nb).

(** Every call in a notebook, with the line it stands on. *)
Definition is_call (e : expr) : bool :=
  match e with ECall _ _ _ => true | _ => false end.

Definition calls (nb : notebook) : list (nat * expr) :=
  flat_map (fun ls => map (pair (fst ls)) (filter (fun e => is_call e) (stmt_exprs (snd ls))))
    (program nb).

(** The name a callee hangs off: [pd] for [pd.read_csv], [dd] for
    [dd.read_parquet(...).persist], [macro] for [macro.sort(...).to]. *)
Fixpoint root (e : expr) : option string :=
  match e with
  | EName x => Some x
  | EAttribute v _ => root v
  | ECall f _ _ => root f
  | _ => None
  end.

Definition callee (e : expr) : option expr :=
  match e with ECall f _ _ => Some f | _ => None end.

(** The function or method name of a call. *)
Definition callee_name (e : expr) : option string :=
  match e with
  | ECall (EName f) _ _ => Some f
  | ECall (EAttribute _ a) _ _ => Some a
  | _ => None
  end.

(** The file-reading calls ([read_csv], [read_parquet], ...) and their paths. *)
Definition file_read (e : expr) : option string :=
  match e with
  | ECall (EAttribute _ a) (EStr path :: _) _ =>
      if String.prefix "read_" a then Some path else None
  | _ => None
  end.

Definition file_reads (nb : notebook) : list (nat * string) :=
  omap (fun le => pair (fst le) <$> file_read (snd le)) (calls nb).

(** Python's own ways to take input or reach the system without a library. *)
Definition input_builtins : list string :=
  ["input"; "open"; "eval"; "exec"; "compile"; "__import__"; "globals"; "locals"].

Definition system_modules : list string :=
  ["sys"; "os"; "io"; "socket"; "urllib"; "http"; "requests"; "subprocess";
   "pathlib"; "glob"; "shutil"; "pickle"; "sqlite3"].

(** The standard library's modules for threads, processes and their
    coordination, and the names that start or synchronise them. *)
Definition concurrency_modules : list string :=
  ["threading"; "_thread"; "multiprocessing"; "concurrent"; "asyncio";
   "subprocess"; "queue"; "sched"; "signal"; "select"; "selectors"].

Definition concurrency_names : list string :=
  ["Thread"; "Process"; "Pool"; "ThreadPoolExecutor"; "ProcessPoolExecutor";
   "Lock"; "RLock"; "Semaphore"; "BoundedSemaphore"; "Event"; "Condition";
   "Barrier"; "Queue"; "Timer"; "start_new_thread"; "fork"; "acquire";
   "release"; "join"; "wait"; "notify"; "submit"].

Definition attribute_name (e : expr) : option string :=
  match e with
  | EName x => Some x
  | EAttribute _ a => Some a
  | _ => None
  end.

(** Every name and attribute name a notebook mentions. *)
Definition mentioned (nb : notebook) : list string :=
  omap attribute_name (flat_map stmt_exprs (stmts nb)).





(** ** Dimensions: what the notebooks write down and what [.to] is asked for

    Which dimensions a dataset has when the notebook runs is the library's
    to decide, from the declaration and from the columns of the data.  What
    follows reads off the text only. *)

(** The value of a keyword argument. *)
Fixpoint keyword (k : string) (kw : list (string * expr)) : option expr :=
  match kw with
  | [] => None
  | (k', e) :: kw' => if String.eqb k k' then Some e else keyword k kw'
  end.

(** Dimensions are given as one name or as a list of names. *)
Definition expr_of_str (e : expr) : option string :=
  match e with EStr s => Some s | _ => None end.

Definition dim_names (e : expr) : list string :=
  match e with
  | EStr s => [s]
  | EList es | ETuple es => omap expr_of_str es
  | _ => []
  end.

(** A keyword argument, or else the positional argument at [i]. *)
Definition argument (k : string) (i : nat) (args : list expr)
    (kw : list (string * expr)) : option expr :=
  match keyword k kw with
  | Some e => Some e
  | None => args !! i
  end.

(** A conversion [ds.to(element, kdims, vdims, groupby)]: "the element you
    want to convert to, the key dimensions, the dependent variables to
    display, the dimensions to group by" (notebook 05).  [conv_groupby] is
    [None] when the argument is left out. *)
Record conversion : Type := Conversion {
  conv_line : nat;
  conv_dataset : expr;
  conv_element : option expr;
  conv_kdims : list string;
  conv_vdims : list string;
  conv_groupby : option (list string)
}.

Definition as_conversion (ln : nat) (e : expr) : option conversion :=
  match e with
  | ECall (EAttribute ds m) args kw =>
      if String.eqb m "to" then
        Some {| conv_line := ln;
                conv_dataset := ds;
                conv_element := args !! 0%nat;
                conv_kdims := default [] (dim_names <$> argument "kdims" 1 args kw);
                conv_vdims := default [] (dim_names <$> argument "vdims" 2 args kw);
                conv_groupby := dim_names <$> argument "groupby" 3 args kw |}
      else None
  | _ => None
  end.

Definition conversions (nb : notebook) : list conversion :=
  omap (fun le => as_conversion (fst le) (snd le)) (calls nb).

(** The dimensions a conversion is explicitly told to group by. *)
Definition grouped_by (c : conversion) : list string :=
  default [] (conv_groupby c).

(** The last assignment to [x] on a line before [ln]. *)
Definition assignment_to (x : string) (ls : nat * stmt) : option (nat * expr) :=
  match snd ls with
  | SAssign (TName y) e => if String.eqb x y then Some (fst ls, e) else None
  | _ => None
  end.

Definition binding_before (nb : notebook) (ln : nat) (x : string)
    : option (nat * expr) :=
  last (omap (assignment_to x) (filter (fun ls => fst ls < ln)%nat (program nb))).

(** The constructor call a dataset expression goes back to in the text:
    through the variable it is bound to and through the methods called on it
    ([sort], [redim.label]), down to the call [hv.Dataset(...)] on an
    imported module. *)
Fixpoint constructed_by (nb : notebook) (fuel ln : nat) (e : expr) : option expr :=
  match fuel with
  | O => None
  | S fuel' =>
      match e with
      | EName x =>
          '(ln', rhs) ← binding_before nb ln x;
          constructed_by nb fuel' ln' rhs
      | ECall (EAttribute (EName m) _) _ _ =>
          if bool_decide (m ∈ imported_names nb) then Some e
          else constructed_by nb fuel' ln (EName m)
      | ECall (EAttribute recv _) _ _ | EAttribute recv _ =>
          constructed_by nb fuel' ln recv
      | _ => None
      end
  end.

Definition declaration (nb : notebook) (c : conversion) : option expr :=
  constructed_by nb (length (program nb)) (conv_line c) (conv_dataset c).

(** The dimensions a constructor call [hv.Dataset(data, kdims, vdims)]
    writes down, by keyword or by position. *)
Definition written (k : string) (i : nat) (decl : expr) : option (list string) :=
  match decl with
  | ECall _ args kw => dim_names <$> argument k i args kw
  | _ => None
  end.

(** The key and value dimensions the notebook writes down for the dataset a
    conversion starts from; [None] when it writes none. *)
Definition written_kdims (nb : notebook) (c : conversion) : option (list string) :=
  declaration nb c ≫= written "kdims" 1.

Definition written_vdims (nb : notebook) (c : conversion) : option (list string) :=
  declaration nb c ≫= written "vdims" 2.

(** What holds of the conversions as the notebooks write them: a dimension
    grouped by is one of the key dimensions written for the dataset whenever
    some are written, no value dimension is written for the dataset, and the
    dimension is neither a key nor a value dimension of the element asked
    for. *)
Definition grouping_ok (nb : notebook) (c : conversion) (g : string) : Prop :=
  (forall ks, written_kdims nb c = Some ks -> g ∈ ks)
  /\ written_vdims nb c = None
  /\ (g ∉ conv_vdims c)
  /\ (g ∉ conv_kdims c).

Definition groups_as_written (nb : notebook) : Prop :=
  forall c, c ∈ conversions nb -> forall g, g ∈ grouped_by c -> grouping_ok nb c g.

Definition grouping_check (nb : notebook) (c : conversion) (g : string) : bool :=
  (match written_kdims nb c with
   | Some ks => bool_decide (g ∈ ks)
   | None => true
   end)
  && (match written_vdims nb c with Some _ => false | None => true end)
  && negb (bool_decide (g ∈ conv_vdims c))
  && negb (bool_decide (g ∈ conv_kdims c)).

(** The line, the [groupby] argument and the written key dimensions of every
    conversion of a notebook. *)
Definition grouping_table (nb : notebook)
    : list (nat * option (list string) * option (list string)) :=
  map (fun c => (conv_line c, conv_groupby c, written_kdims nb c)) (conversions nb).
(** ** The fragment the semantics covers *)

(** Expressions [eval] is defined on: everything but the [computing] forms. *)
Fixpoint plain (e : expr) : bool :=
  match e with
  | EName _ | EStr _ | ENum _ | ENone | EBool _ => true
  | EList es | ETuple es => forallb plain es
  | EAttribute v _ => plain v
  | ECall f args kw =>
      plain f && forallb plain args && forallb (fun p => plain (snd p)) kw
  | EBinOp l _ r => plain l && plain r
  | EDict _ | ELambda _ _ | EIfExp _ _ _ | EListComp _ _ _ => false
  end.

(** Statements without a block of their own, over plain expressions: imports,
    assignments to a name or an attribute, expression statements, magics. *)
Definition straight (s : stmt) : bool :=
  match s with
  | SImport _ _ | SImportFrom _ _ | SMagic _ _ _ => true
  | SAssign (TName _) e | SExpr e => plain e
  | SAssign (TAttribute o _) e => plain e && plain o
  | _ => false
  end.

(** Straight statements that [exec] runs: all but the cell magics. *)
Definition executable (s : stmt) : bool :=
  match s with
  | SMagic cell _ _ => negb cell
  | _ => straight s
  end.

(** Every cell holds executable code once its cell magic has taken its
    lines. *)
Definition runnable (nb : notebook) : bool :=
  forallb (fun c => forallb (fun ls => executable (snd ls)) (cell_code c)) nb.

(** The state a step leaves behind. *)
Definition final {S A} (r : result S A) : S :=
  match r with Ok _ s | Exc _ s => s end.

(** A machine on which the sample data is missing, and where it stops. *)
Definition no_data_start : state (nat * list exn) := initial (100, []).

(** The same machine after the first code cell of notebook 05 (lines 26 to
    31). *)
Definition after_imports05 : state nat :=
  match run_all toy_no_data (take 3 nb05_working_with_tabular_data) (initial 100) with
  | Some r => final r
  | None => initial 0
  end.

(** An induction principle for expressions that reaches into argument lists. *)
Section ExprInduction.
Variable P : expr -> Prop.
Hypothesis Hname : forall x, P (EName x).
Hypothesis Hstr : forall s, P (EStr s).
Hypothesis Hnum : forall n, P (ENum n).
Hypothesis Hnone : P ENone.
Hypothesis Hbool : forall b, P (EBool b).
Hypothesis Hlist : forall es, Forall P es -> P (EList es).
Hypothesis Htuple : forall es, Forall P es -> P (ETuple es).
Hypothesis Hattr : forall v a, P v -> P (EAttribute v a).
Hypothesis Hcall : forall f args kw,
  P f -> Forall P args -> Forall (fun p => P (snd p)) kw -> P (ECall f args kw).
Hypothesis Hbinop : forall l op r, P l -> P r -> P (EBinOp l op r).
Hypothesis Hdict : forall items, P (EDict items).
Hypothesis Hlambda : forall ps b, P (ELambda ps b).
Hypothesis Hifexp : forall c t f, P (EIfExp c t f).
Hypothesis Hcomp : forall elt x it, P (EListComp elt x it).

Fixpoint expr_induction (e : expr) : P e :=
  match e with
  | EName x => Hname x
  | EStr s => Hstr s
  | ENum n => Hnum n
  | ENone => Hnone
  | EBool b => Hbool b
  | EList es =>
      Hlist es ((fix go l : Forall P l :=
                   match l with
                   | [] => List.Forall_nil P
                   | x :: l' => List.Forall_cons P x l' (expr_induction x) (go l')
                   end) es)
  | ETuple es =>
      Htuple es ((fix go l : Forall P l :=
                    match l with
                    | [] => List.Forall_nil P
                    | x :: l' => List.Forall_cons P x l' (expr_induction x) (go l')
                    end) es)
  | EAttribute v a => Hattr v a (expr_induction v)
  | ECall f args kw =>
      Hcall f args kw (expr_induction f)
        ((fix go l : Forall P l :=
            match l with
            | [] => List.Forall_nil P
            | x :: l' => List.Forall_cons P x l' (expr_induction x) (go l')
            end) args)
        ((fix go l : Forall (fun p => P (snd p)) l :=
            match l with
            | [] => List.Forall_nil _
            | p :: l' =>
                List.Forall_cons (fun p => P (snd p)) p l'
                  (match p as q return P (snd q) with (_, x) => expr_induction x end)
                  (go l')
            end) kw)
  | EBinOp l op r => Hbinop l op r (expr_induction l) (expr_induction r)
  | EDict items => Hdict items
  | ELambda ps b => Hlambda ps b
  | EIfExp c t f => Hifexp c t f
  | EListComp elt x it => Hcomp elt x it
  end.
End ExprInduction.

(** ** Effects of a computation

    [respects R E c]: from every state [s], [c] stays inside the fragment and
    ends in a state related to [s] by [R] when it returns and by [E e] when it
    raises [e]. *)

Definition satisfies {S A} (R : S -> S -> Prop) (E : S -> exn -> S -> Prop)
    (s : S) (r : result S A) : Prop :=
  match r with
  | Ok _ s' => R s s'
  | Exc e s' => E s e s'
  end.

Definition respects {S A} (R : S -> S -> Prop) (E : S -> exn -> S -> Prop)
    (c : comp S A) : Prop :=
  forall s, exists r, c s = Some r /\ satisfies R E s r.

(** What the record of [logged L] shows after a step that returns, and after
    a step in which the library raised [e]. *)
Definition nothing_raised {W} (m m' : mem (W * list exn)) : Prop :=
  raised m' = raised m.

Definition library_raised {W} (m : mem (W * list exn)) (e : exn)
    (m' : mem (W * list exn)) : Prop :=
  raised m' = raised m ++ [e].

(** Forgetting the record of [logged L] gives back a state of [L]. *)
Definition forget {W} (s : state (W * list exn)) : state W :=
  State (env s) (inner (memory s)) (trace s) (shown s).

Definition map_state {S S' A} (phi : S' -> S) (r : result S' A) : result S A :=
  match r with
  | Ok a s => Ok a (phi s)
  | Exc e s => Exc e (phi s)
  end.

(** [c'] over the larger state does, seen through [phi], what [c] does. *)
Definition simulates {S S' A} (phi : S' -> S) (c' : comp S' A) (c : comp S A) : Prop :=
  forall s', c (phi s') = map_state phi <$> c' s'.

(** ** Names, stores and what a run shows *)

(** A name that can be read: bound in the namespace, or a builtin of the
    runtime. *)
Definition known {W} (L : library W) (rho : gmap string value) (x : string) : Prop :=
  is_Some (rho !! x) \/ is_Some (lib_builtin L x).

(** A name may be read when it is known, or when [K] lets its NameError
    pass. *)
Definition readable {W} (L : library W) (K : string -> Prop)
    (rho : gmap string value) (x : string) : Prop :=
  known L rho x \/ K x.

(** The second namespace binds at least what the first binds. *)
Definition grows (rho rho' : gmap string value) : Prop :=
  forall x, is_Some (rho !! x) -> is_Some (rho' !! x).

(** The runtime provides print, len, list and range. *)
Definition provides_builtins {W} (L : library W) : Prop :=
  forall x, x ∈ builtins -> is_Some (lib_builtin L x).


(** The attribute a statement stores into, if it is a store. *)
Definition stored (s : stmt) : list string :=
  match s with
  | SAssign (TAttribute _ a) _ => [a]
  | _ => []
  end.

(** The attributes stored into by the cells that start with a cell magic,
    and by the other cells. *)
Definition magic_stored (nb : notebook) : list string :=
  flat_map (fun c => match magic_head c with
                     | Some _ => flat_map stored (code_stmts c)
                     | None => []
                     end) nb.

Definition plain_stored (nb : notebook) : list string :=
  flat_map (fun c => match magic_head c with
                     | Some _ => []
                     | None => flat_map stored (code_stmts c)
                     end) nb.

(** The exception of a store into something that is no object. *)
Definition store_failed (attrs : list string) (e : exn) : Prop :=
  exists a, a ∈ attrs /\ e = Exn "AttributeError" a.

(** The lines of a cell that are executed when all of it runs: the line of
    its cell magic, if it starts with one, and the lines of its code. *)
Definition cell_lines (c : cell) : list nat :=
  match magic_head c with
  | Some (ln, _, _, _) => ln :: map fst (cell_code c)
  | None => map fst (cell_code c)
  end.

Definition statement_lines (nb : notebook) : list nat := flat_map cell_lines nb.

(** The lines of the cell magics that start a cell. *)
Definition magic_line (c : cell) : option nat :=
  (fun h => fst (fst (fst h))) <$> magic_head c.

Definition magic_lines (nb : notebook) : list nat := omap magic_line nb.

(** Every name a cell reads is a name in [bound], or is bound earlier in the
    same cell, or is bound by an earlier cell that does not start with a
    cell magic: what a cell magic's cell binds is not relied on later. *)
Fixpoint scoped_cells (bound : list string) (nb : notebook) : bool :=
  match nb with
  | [] => true
  | c :: nb' =>
      scoped bound (code_stmts c)
      && scoped_cells (match magic_head c with
                       | Some _ => bound
                       | None => flat_map binds (code_stmts c) ++ bound
                       end) nb'
  end.

(** The exceptions in a list of notices. *)
Definition tracebacks (sh : list (nat * notice)) : list exn :=
  omap (fun p => match snd p with
                 | Traceback e => Some e
                 | Declined => None
                 end) sh.

(** The notices a run from [s] has added. *)
Definition new_notices {W A} (s : state W) (r : result (state W) A)
    : list (nat * notice) :=
  drop (length (shown s)) (shown (final r)).

(** The exception a run ended with, if it ended with one. *)
Definition ended_with {S A} (r : result S A) : list exn :=
  match r with
  | Ok _ _ => []
  | Exc e _ => [e]
  end.

(** Every exception a run from [s] has met, in order: those shown on the way
    and the one that ended it. *)
Definition seen {W A} (s : state W) (r : result (state W) A) : list exn :=
  tracebacks (new_notices s r) ++ ended_with r.

(** A library that never writes an attribute onto an object by itself: the
    instance dictionaries are the notebook's to change. *)
Definition leaves_heap {W} (L : library W) : Prop :=
  (forall md m, heap (final (lib_import L md m)) = heap m)
  /\ (forall v a m, heap (final (lib_getattr L v a m)) = heap m)
  /\ (forall f args kw m, heap (final (lib_call L f args kw m)) = heap m)
  /\ (forall op a b m, heap (final (lib_binop L op a b m)) = heap m)
  /\ (forall c n l body ns m, heap (final (lib_magic L c n l body ns m)) = heap m).

(** Two memories with the same instance dictionaries outside the attributes
    [attrs]. *)
Definition same_heap_outside {W} (attrs : list string) (m m' : mem W) : Prop :=
  forall l a, a ∉ attrs -> heap m' !! (l, a) = heap m !! (l, a).

(** ** Outcomes of guarded code

    The relations [R] and [E] say what the library may do to the memory when
    it returns and when it raises. *)

(** A statement raised [e]: the library did, or a store into an attribute in
    [attrs] found no object. *)
Definition raising {W} (R : mem W -> mem W -> Prop) (E : mem W -> exn -> mem W -> Prop)
    (attrs : list string) (m : mem W) (e : exn) (m' : mem W) : Prop :=
  E m e m' \/ (R m m' /\ store_failed attrs e).

(** From [m] to [m'] through code in which the exceptions [es] were raised,
    one after the other, and shown. *)
Inductive carried {W} (R : mem W -> mem W -> Prop) (E : mem W -> exn -> mem W -> Prop)
    (attrs : list string) : mem W -> list exn -> mem W -> Prop :=
| carried_done m m' : R m m' -> carried R E attrs m [] m'
| carried_on m e m1 es m' :
    raising R E attrs m e m1 -> carried R E attrs m1 es m' ->
    carried R E attrs m (e :: es) m'.

(** What a piece of code leaves behind: no new notice, a namespace that has
    only grown; when it returns, the trace has grown by [lines] and the names
    [bs] are bound; when it raises, the trace has grown by the lines up to
    the statement that raised. *)
Definition outcome {W B} (R : mem W -> mem W -> Prop) (E : mem W -> exn -> mem W -> Prop)
    (lines : list nat) (bs attrs : list string)
    (s : state W) (r : result (state W) B) : Prop :=
  shown (final r) = shown s
  /\ grows (env s) (env (final r))
  /\ match r with
     | Ok _ s' =>
         trace s' = trace s ++ lines
         /\ R (memory s) (memory s')
         /\ forall x, x ∈ bs -> is_Some (env s' !! x)
     | Exc e s' =>
         (exists t, t `prefix_of` lines /\ trace s' = trace s ++ t)
         /\ raising R E attrs (memory s) e (memory s')
     end.

(** Code that, wherever the names in [X] can be read, stays in the fragment
    and ends with that outcome. *)
Definition guarded {W B} (L : library W) (R : mem W -> mem W -> Prop)
    (E : mem W -> exn -> mem W -> Prop) (K X : string -> Prop)
    (lines : list nat) (bs attrs : list string) (c : comp (state W) B) : Prop :=
  forall s, (forall x, X x -> readable L K (env s) x) ->
    exists r, c s = Some r /\ outcome R E lines bs attrs s r.

(** What cells leave behind: the notices they added, all of cell magics of
    [nb]; the lines executed, in the order of the notebook and none twice;
    a memory reached through the exceptions shown; and, when no notice was
    added and the run completed, every line executed. *)
Definition cells_outcome {W} (R : mem W -> mem W -> Prop)
    (E : mem W -> exn -> mem W -> Prop) (nb : notebook)
    (s : state W) (r : result (state W) unit) : Prop :=
  exists sh t,
    shown (final r) = shown s ++ sh
    /\ trace (final r) = trace s ++ t
    /\ t `sublist_of` statement_lines nb
    /\ Forall (fun p => fst p ∈ magic_lines nb) sh
    /\ grows (env s) (env (final r))
    /\ match r with
       | Ok _ s' =>
           carried R E (magic_stored nb) (memory s) (tracebacks sh) (memory s')
           /\ (sh = [] -> t = statement_lines nb)
       | Exc e s' =>
           exists m1,
             carried R E (magic_stored nb) (memory s) (tracebacks sh) m1
             /\ raising R E (plain_stored nb) m1 e (memory s')
       end.

(** ** The properties of a notebook that the proofs below settle

    Definitions named [spec_...] follow the specification's wording; the
    others say what the cells are. *)

(** "Each code statement either imports a library, binds a literal value, or
    applies an external library function": the specification's three kinds. *)
Definition spec_pass_through (nb : notebook) : Prop :=
  forall ln s, (ln, s) ∈ program nb -> kind_of s ∈ spec_kinds.

(** What the cells are made of: the three kinds, the display of a bound
    value, and the [opts] magics of the plotting library. *)
Definition pass_through (nb : notebook) : Prop :=
  forall ln s, (ln, s) ∈ program nb ->
    kind_of s ∈ notebook_kinds /\ defines_original s = false.

(** Every name a statement reads is a builtin or is bound by a statement
    before it. *)
Definition bound_before_use (nb : notebook) : Prop :=
  forall pre ln s post, program nb = pre ++ (ln, s) :: post ->
    forall x, x ∈ uses s ->
      x ∈ builtins \/ exists ln' s', (ln', s') ∈ pre /\ x ∈ binds s'.

(** Every function called hangs off a name bound by an import, a name
    assigned in the notebook, or a builtin. *)
Definition calls_external (nb : notebook) : Prop :=
  forall ln e, (ln, e) ∈ calls nb ->
    exists x, root e = Some x /\
      (x ∈ imported_names nb \/ x ∈ assigned_names nb \/ x ∈ builtins).

Definition calls_external_check (nb : notebook) (le : nat * expr) : bool :=
  match root (snd le) with
  | Some x =>
      bool_decide (x ∈ imported_names nb) || bool_decide (x ∈ assigned_names nb)
      || bool_decide (x ∈ builtins)
  | None => false
  end.

(** "Every data input comes either from a file under ../data/ or through a
    library API call, and no other input channel is used." *)
Definition inputs_through_libraries (nb : notebook) : Prop :=
  (forall ln path, (ln, path) ∈ file_reads nb -> String.prefix data_dir path = true)
  /\ calls_external nb
  /\ (forall x, x ∈ mentioned nb -> x ∉ input_builtins)
  /\ (forall m, m ∈ imports nb -> module_root m ∉ system_modules)
  /\ (forall ln c n l, (ln, SMagic c n l) ∈ program nb -> n = "opts").

(** "Any exception raised by the library call propagates unchanged to the
    top level": in a run of all cells against any library, the exceptions
    the library raised are, one for one and in order, the exceptions the run
    met, each either shown as a traceback by the shell of a cell magic or
    the one that ended the run; keeping the record does not change the run.
    The runtime itself adds at most the AttributeError of a store into
    something that is no object, which then ends the run. *)
Definition failures_surface (nb : notebook) : Prop :=
  forall W (L : library W) (s : state (W * list exn)),
    provides_builtins L ->
    exists r,
      run_all (logged L) nb s = Some r
      /\ run_all L nb (forget s) = Some (map_state forget r)
      /\ Forall (fun p => fst p ∈ magic_lines nb) (new_notices s r)
      /\ (raised (memory (final r)) = raised (memory s) ++ seen s r
          \/ exists e,
               ended_with r = [e]
               /\ store_failed (plain_stored nb) e
               /\ raised (memory (final r))
                  = raised (memory s) ++ tracebacks (new_notices s r)).




(** The calls of a function or method named [f]. *)
Definition calls_named (f : string) (nb : notebook) : list (nat * expr) :=
  filter (fun le => callee_name (snd le) = Some f) (calls nb).

(** "No statement creates a thread or process, acquires a lock, or
    synchronizes." *)
Definition no_concurrency (nb : notebook) : Prop :=
  (forall m, m ∈ imports nb -> module_root m ∉ concurrency_modules)
  /\ (forall x, x ∈ mentioned nb -> x ∉ concurrency_names)
  /\ Forall (fun ls => straight (snd ls) = true) (program nb).

(** * Facts about the semantics *)

Lemma bind_eq {S A B} (c : comp S A) (k : A -> comp S B) s :
  bind c k s =
  match c s with
  | Some (Ok a s') => k a s'
  | Some (Exc e s') => Some (Exc e s')
  | None => None
  end.
Proof. reflexivity. Qed.

(** A block over two lists is the block over the first, then the block over
    the second. *)
Lemma block_app {S A} (f : A -> comp S unit) p q (s : S) :
  block f (p ++ q) s =
  match block f p s with
  | Some (Ok _ s') => block f q s'
  | Some (Exc e s') => Some (Exc e s')
  | None => None
  end.
Proof.
  revert s. induction p as [| a p IH]; intros s; [reflexivity |].
  simpl. rewrite !bind_eq.
  destruct (f a s) as [[[] s1 | e s1] |]; [apply IH | reflexivity..].
Qed.

(** [run] statement by statement. *)
Lemma run_cons {W} (L : library W) ln st p (s : state W) :
  run L ((ln, st) :: p) s =
  match exec L st (State (env s) (memory s) (trace s ++ [ln]) (shown s)) with
  | Some (Ok _ s') => run L p s'
  | Some (Exc e s') => Some (Exc e s')
  | None => None
  end.
Proof. reflexivity. Qed.

(** [run_all] cell by cell. *)
Lemma run_all_cons {W} (L : library W) c nb (s : state W) :
  run_all L (c :: nb) s =
  match run_cell L c s with
  | Some (Ok _ s') => run_all L nb s'
  | Some (Exc e s') => Some (Exc e s')
  | None => None
  end.
Proof. reflexivity. Qed.

Lemma run_all_app {W} (L : library W) nb1 nb2 (s : state W) :
  run_all L (nb1 ++ nb2) s =
  match run_all L nb1 s with
  | Some (Ok _ s') => run_all L nb2 s'
  | Some (Exc e s') => Some (Exc e s')
  | None => None
  end.
Proof. apply block_app. Qed.

Section Respect.
Context {S : Type} (R : S -> S -> Prop) (E : S -> exn -> S -> Prop).
Hypothesis R_refl : forall s, R s s.
Hypothesis R_trans : forall s1 s2 s3, R s1 s2 -> R s2 s3 -> R s1 s3.
Hypothesis E_after : forall s1 s2 s3 e, R s1 s2 -> E s2 e s3 -> E s1 e s3.

Lemma respects_ret {A} (a : A) : respects R E (ret a).
Proof using R_refl. intros s. exists (Ok a s). split; [reflexivity | apply R_refl]. Qed.

Lemma respects_external {A} (f : S -> result S A) :
  (forall s, satisfies R E s (f s)) -> respects R E (external f).
Proof. intros Hf s. exists (f s). split; [reflexivity | apply Hf]. Qed.

Lemma respects_bind {A B} (c : comp S A) (k : A -> comp S B) :
  respects R E c -> (forall a, respects R E (k a)) -> respects R E (bind c k).
Proof using R_trans E_after.
  intros Hc Hk s. unfold bind.
  destruct (Hc s) as [[a s1 | e s1] [-> H1]]; simpl in H1.
  - destruct (Hk a s1) as [r [-> H2]]. exists r. split; [reflexivity |].
    destruct r as [b s2 | e s2]; simpl in *; eauto.
  - exists (Exc e s1). split; [reflexivity | exact H1].
Qed.

Lemma respects_mapM {A B} (f : A -> comp S B) (l : list A) :
  Forall (fun a => respects R E (f a)) l -> respects R E (mapM f l).
Proof using R_refl R_trans E_after.
  induction 1 as [| a l Ha _ IH]; simpl.
  - apply respects_ret.
  - apply respects_bind; [exact Ha | intros b].
    apply respects_bind; [exact IH | intros bs]. apply respects_ret.
Qed.
End Respect.

(** One step of a sequence: the first computation, then the rest; a final
    [ret] is closed on the spot. *)
Ltac sequence :=
  apply respects_bind;
  [ assumption | assumption | | intros ?; try (apply respects_ret; assumption) ].

(** ** Namespaces that grow *)

Lemma grows_refl rho : grows rho rho.
Proof. intros x Hx. exact Hx. Qed.

Lemma grows_insert rho y v : grows rho (<[y := v]> rho).
Proof.
  intros x Hx. destruct (decide (y = x)) as [-> | Hne].
  - rewrite lookup_insert_eq. eauto.
  - rewrite lookup_insert_ne; [exact Hx | exact Hne].
Qed.

Lemma grows_trans rho1 rho2 rho3 : grows rho1 rho2 -> grows rho2 rho3 -> grows rho1 rho3.
Proof. intros H1 H2 x Hx. apply H2, H1, Hx. Qed.

Lemma readable_grows {W} (L : library W) K rho rho' x :
  grows rho rho' -> readable L K rho x -> readable L K rho' x.
Proof.
  intros Hg [[Hx | Hb] | Hk]; [left; left; apply Hg, Hx | left; right; exact Hb | right; exact Hk].
Qed.

Lemma prefix_is_sublist {A} (t l : list A) : t `prefix_of` l -> t `sublist_of` l.
Proof. intros [k ->]. apply sublist_inserts_r. reflexivity. Qed.

(** ** Names in an expression and in a statement *)

Lemma forallb_elem_of {A} (f : A -> bool) (l : list A) :
  forallb f l = true -> forall x, x ∈ l -> f x = true.
Proof.
  intros H x Hx. apply list_elem_of_In in Hx.
  rewrite forallb_forall in H. apply H, Hx.
Qed.

Lemma name_of_statement s e x :
  In e (own_exprs s) -> In (EName x) (subexprs e) -> x ∈ uses s.
Proof.
  intros He Hx. unfold uses, stmt_exprs. apply list_elem_of_omap.
  exists (EName x). split; [| reflexivity].
  apply list_elem_of_In, in_flat_map. exists e. split; [| exact Hx].
  apply in_flat_map. exists s. split; [| exact He].
  destruct s; left; reflexivity.
Qed.

(** ** Guarded code: which names may fail, which attributes may change *)

Section Guarded.
Context {W : Type} (L : library W).
Variable R : mem W -> mem W -> Prop.
Variable E : mem W -> exn -> mem W -> Prop.
Variable K : string -> Prop.
Variable A : string -> Prop.
Hypothesis R_refl : forall m, R m m.
Hypothesis R_trans : forall m1 m2 m3, R m1 m2 -> R m2 m3 -> R m1 m3.
Hypothesis E_after : forall m1 m2 m3 e, R m1 m2 -> E m2 e m3 -> E m1 e m3.
Hypothesis E_name : forall m x, K x -> E m (Exn "NameError" x) m.
Hypothesis R_store : forall m l a v,
  A a -> R m (Mem (<[(l, a) := v]> (heap m)) (world m)).
Hypothesis import_ok : forall md m, satisfies R E m (lib_import L md m).
Hypothesis getattr_ok : forall v a m, satisfies R E m (lib_getattr L v a m).
Hypothesis call_ok : forall f args kw m, satisfies R E m (lib_call L f args kw m).
Hypothesis binop_ok : forall op a b m, satisfies R E m (lib_binop L op a b m).
Hypothesis magic_ok : forall c n l body ns m,
  satisfies R E m (lib_magic L c n l body ns m).

Local Abbreviation readable := (readable L K).
Local Abbreviation raising := (raising R E).
Local Abbreviation carried := (carried R E).
Local Abbreviation outcome := (outcome R E).
Local Abbreviation guarded := (guarded L R E K).
Local Abbreviation cells_outcome := (cells_outcome R E).

(** *** Expressions *)

Lemma getattr_respects v a : respects R E (getattr L v a).
Proof using R_refl getattr_ok.
  intros m. unfold getattr.
  destruct v; try (eexists; split; [reflexivity | apply getattr_ok]).
  destruct (heap m !! (l, a)) as [v' |].
  - exists (Ok v' m). split; [reflexivity | apply R_refl].
  - eexists; split; [reflexivity | apply getattr_ok].
Qed.

Lemma lookup_name_guarded rho x :
  readable rho x -> respects R E (lookup_name L rho x).
Proof using R_refl E_name.
  intros Hx. unfold lookup_name.
  destruct (rho !! x) as [v |] eqn:Hrho; [apply respects_ret, R_refl |].
  destruct (lib_builtin L x) as [v |] eqn:Hb; [apply respects_ret, R_refl |].
  intros m. eexists; split; [reflexivity |]. apply E_name.
  destruct Hx as [[[v Hv] | [v Hv]] | Hk]; [congruence | congruence | exact Hk].
Qed.

Lemma eval_guarded e :
  plain e = true ->
  forall rho, (forall x, In (EName x) (subexprs e) -> readable rho x) ->
  respects R E (eval L e rho).
Proof using R_refl R_trans E_after E_name getattr_ok call_ok binop_ok.
  induction e as [x | | | | | es IH | es IH | v a IH | f args kw IHf IHargs IHkw
                 | l op r IHl IHr | | | |] using expr_induction;
    simpl; intros Hp rho Hn; try discriminate;
    try (apply respects_ret; assumption).
  - apply lookup_name_guarded, Hn. left; reflexivity.
  - sequence. apply respects_mapM; [assumption.. |].
    apply Forall_forall. intros e' He'.
    apply (proj1 (Forall_forall _ _) IH e' He').
    + apply (forallb_elem_of _ _ Hp e' He').
    + intros x Hx. apply Hn. right. apply in_flat_map. exists e'.
      split; [apply list_elem_of_In, He' | exact Hx].
  - sequence. apply respects_mapM; [assumption.. |].
    apply Forall_forall. intros e' He'.
    apply (proj1 (Forall_forall _ _) IH e' He').
    + apply (forallb_elem_of _ _ Hp e' He').
    + intros x Hx. apply Hn. right. apply in_flat_map. exists e'.
      split; [apply list_elem_of_In, He' | exact Hx].
  - sequence; [| apply getattr_respects; assumption].
    apply IH; [exact Hp |]. intros x Hx. apply Hn. right. exact Hx.
  - apply andb_true_iff in Hp as [Hp Hkw]. apply andb_true_iff in Hp as [Hf Hargs].
    sequence.
    { apply IHf; [exact Hf |]. intros x Hx. apply Hn. right.
      apply in_or_app. left. exact Hx. }
    sequence.
    { apply respects_mapM; [assumption.. |].
      apply Forall_forall. intros e' He'.
      apply (proj1 (Forall_forall _ _) IHargs e' He').
      - apply (forallb_elem_of _ _ Hargs e' He').
      - intros x Hx. apply Hn. right. apply in_or_app. right.
        apply in_or_app. left. apply in_flat_map. exists e'.
        split; [apply list_elem_of_In, He' | exact Hx]. }
    sequence.
    { apply respects_mapM; [assumption.. |].
      apply Forall_forall. intros [k e'] He'.
      sequence.
      apply (proj1 (Forall_forall _ _) IHkw (k, e') He').
      - apply (forallb_elem_of _ _ Hkw (k, e') He').
      - intros x Hx. apply Hn. right. apply in_or_app. right.
        apply in_or_app. right. apply in_flat_map. exists (k, e').
        split; [apply list_elem_of_In, He' | exact Hx]. }
    apply respects_external. intros m. apply call_ok.
  - apply andb_true_iff in Hp as [Hl Hr].
    sequence.
    { apply IHl; [exact Hl |]. intros x Hx. apply Hn. right.
      apply in_or_app. left. exact Hx. }
    sequence.
    { apply IHr; [exact Hr |]. intros x Hx. apply Hn. right.
      apply in_or_app. right. exact Hx. }
    apply respects_external. intros m. apply binop_ok.
Qed.

(** *** Raising, and carrying on after a traceback *)

Lemma raising_after attrs m1 m2 m3 e :
  R m1 m2 -> raising attrs m2 e m3 -> raising attrs m1 e m3.
Proof using R_trans E_after.
  intros H12 [He | [Hr Hs]]; [left; eauto | right; split; [eauto | exact Hs]].
Qed.

Lemma raising_mono attrs attrs' m e m' :
  (forall a, a ∈ attrs -> a ∈ attrs') -> raising attrs m e m' -> raising attrs' m e m'.
Proof.
  intros Hsub [He | [Hr (a & Ha & ->)]]; [left; exact He | right].
  split; [exact Hr |]. exists a. split; [apply Hsub, Ha | reflexivity].
Qed.

Lemma carried_after attrs m m1 es m' :
  R m m1 -> carried attrs m1 es m' -> carried attrs m es m'.
Proof using R_trans E_after.
  intros Hr Hc. destruct Hc as [m1 m' H | m1 e m2 es m' H Hc].
  - apply carried_done. eauto.
  - eapply carried_on; [eapply raising_after; eassumption | exact Hc].
Qed.

Lemma carried_app attrs m es m1 es' m' :
  carried attrs m es m1 -> carried attrs m1 es' m' -> carried attrs m (es ++ es') m'.
Proof using R_trans E_after.
  induction 1 as [m m1 H | m e m2 es m1 H _ IH]; intros Hc; simpl.
  - eapply carried_after; eassumption.
  - eapply carried_on; [exact H | apply IH, Hc].
Qed.

Lemma carried_mono attrs attrs' m es m' :
  (forall a, a ∈ attrs -> a ∈ attrs') -> carried attrs m es m' -> carried attrs' m es m'.
Proof.
  intros Hsub. induction 1 as [m m' H | m e m1 es m' H _ IH].
  - apply carried_done, H.
  - eapply carried_on; [eapply raising_mono; eassumption | exact IH].
Qed.

(** *** Statements *)

Lemma guarded_ret {B} X (b : B) : guarded X [] [] [] (ret b).
Proof using R_refl.
  intros s _. exists (Ok b s). split; [reflexivity |].
  split; [reflexivity |]. split; [apply grows_refl |]. simpl.
  split; [symmetry; apply app_nil_r |]. split; [apply R_refl |].
  intros x Hx. apply elem_of_nil in Hx. destruct Hx.
Qed.

Lemma guarded_bind {B C} (X X' : string -> Prop) l1 l2 b1 b2 a1 a2
    (c : comp (state W) B) (k : B -> comp (state W) C) :
  guarded X l1 b1 a1 c ->
  (forall v, guarded X' l2 b2 a2 (k v)) ->
  (forall x, X' x -> X x \/ x ∈ b1) ->
  guarded X (l1 ++ l2) (b1 ++ b2) (a1 ++ a2) (bind c k).
Proof using R_trans E_after.
  intros Hc Hk HX s Hs. rewrite bind_eq.
  destruct (Hc s Hs) as [[v s1 | e s1] [-> (Hsh1 & Hg1 & H1)]]; simpl in Hsh1, Hg1, H1.
  - destruct H1 as (Ht1 & HR1 & Hb1).
    destruct (Hk v s1) as [r [-> (Hsh2 & Hg2 & H2)]].
    { intros x Hx. destruct (HX x Hx) as [HxX | Hxb].
      - eapply readable_grows; [exact Hg1 | apply Hs, HxX].
      - left. left. apply Hb1, Hxb. }
    exists r. split; [reflexivity |].
    split; [congruence |]. split; [eapply grows_trans; eassumption |].
    destruct r as [w s2 | e s2]; simpl in *.
    + destruct H2 as (Ht2 & HR2 & Hb2).
      split; [rewrite Ht2, Ht1, app_assoc; reflexivity |].
      split; [eauto |].
      intros x Hx. apply elem_of_app in Hx as [Hx | Hx]; [apply Hg2, Hb1, Hx | apply Hb2, Hx].
    + destruct H2 as ((t & Hpre & Ht2) & Hraise). split.
      * exists (l1 ++ t). split; [apply prefix_app, Hpre |].
        rewrite Ht2, Ht1, app_assoc. reflexivity.
      * eapply raising_mono with (attrs := a2).
        { intros a Ha. apply elem_of_app. right. exact Ha. }
        eapply raising_after; eassumption.
  - exists (Exc e s1). split; [reflexivity |].
    split; [exact Hsh1 |]. split; [exact Hg1 |].
    destruct H1 as ((t & Hpre & Ht) & Hraise). split.
    + exists t. split; [apply prefix_app_r, Hpre | exact Ht].
    + eapply raising_mono with (attrs := a1); [| exact Hraise].
      intros a Ha. apply elem_of_app. left. exact Ha.
Qed.

Lemma guarded_reads {B} (X X' : string -> Prop) lines bs attrs (c : comp (state W) B) :
  guarded X lines bs attrs c -> (forall x, X x -> X' x) -> guarded X' lines bs attrs c.
Proof. intros Hc HX s Hs. apply Hc. intros x Hx. apply Hs, HX, Hx. Qed.

Lemma guarded_on_mem {B} X (c : comp (mem W) B) :
  respects R E c -> guarded X [] [] [] (on_mem c).
Proof.
  intros Hc s _. unfold on_mem.
  destruct (Hc (memory s)) as [[b m | e m] [-> H]]; simpl in H;
    eexists; (split; [reflexivity |]);
    (split; [reflexivity |]); (split; [apply grows_refl |]); simpl.
  - split; [symmetry; apply app_nil_r |]. split; [exact H |].
    intros x Hx. apply elem_of_nil in Hx. destruct Hx.
  - split; [| left; exact H].
    exists []. split; [apply prefix_nil | symmetry; apply app_nil_r].
Qed.

Lemma guarded_eval_in (X : string -> Prop) e :
  plain e = true ->
  (forall x, In (EName x) (subexprs e) -> X x) ->
  guarded X [] [] [] (eval_in L e).
Proof using R_refl R_trans E_after E_name getattr_ok call_ok binop_ok.
  intros Hp Hn s Hs. unfold eval_in.
  apply (guarded_on_mem (fun _ => False)); [| intros x []].
  apply eval_guarded; [exact Hp |]. intros x Hx. apply Hs, Hn, Hx.
Qed.

Lemma guarded_magic X c n l body : guarded X [] [] [] (magic L c n l body).
Proof using magic_ok.
  intros s _. unfold magic.
  apply (guarded_on_mem (fun _ => False)); [| intros x []].
  apply respects_external. intros m. apply magic_ok.
Qed.

Lemma guarded_import X md : guarded X [] [] [] (import_module L md).
Proof using import_ok.
  apply guarded_on_mem, respects_external. intros m. apply import_ok.
Qed.

Lemma guarded_bind_name X x v : guarded X [] [x] [] (bind_name x v).
Proof using R_refl.
  intros s _. eexists; split; [reflexivity |]. unfold outcome. simpl.
  split; [reflexivity |]. split; [apply grows_insert |].
  split; [symmetry; apply app_nil_r |]. split; [apply R_refl |].
  intros y Hy. apply list_elem_of_singleton in Hy as ->.
  rewrite lookup_insert_eq. eauto.
Qed.

Lemma guarded_setattr X ov a v : A a -> guarded X [] [] [a] (on_mem (setattr ov a v)).
Proof using R_refl R_store.
  intros Ha s _. unfold on_mem, setattr.
  destruct ov; simpl;
    eexists; (split; [reflexivity |]);
    (split; [reflexivity |]); (split; [apply grows_refl |]); simpl.
  7: { split; [symmetry; apply app_nil_r |]. split; [apply R_store, Ha |].
       intros x Hx. apply elem_of_nil in Hx. destruct Hx. }
  all: split; [exists []; split; [apply prefix_nil | symmetry; apply app_nil_r] |].
  all: right; split; [apply R_refl |]; exists a; split; [left | reflexivity].
Qed.

Lemma guarded_log X ln : guarded X [ln] [] [] (log ln).
Proof using R_refl.
  intros s _. eexists; split; [reflexivity |]. simpl.
  split; [reflexivity |]. split; [apply grows_refl |].
  split; [reflexivity |]. split; [apply R_refl |].
  intros x Hx. apply elem_of_nil in Hx. destruct Hx.
Qed.

Lemma guarded_import_names X md ns :
  guarded X [] ns []
    (block (fun n => v <- on_mem (getattr L md n);; bind_name n v) ns).
Proof using R_refl R_trans E_after getattr_ok.
  revert X. induction ns as [| n ns IH]; intros X; simpl.
  - apply guarded_ret.
  - apply (guarded_bind X (fun x => X x \/ x ∈ [n]) [] [] [n] ns [] []);
      [| intros _; apply IH | tauto].
    apply (guarded_bind X X [] [] [] [n] [] []);
      [| intros v; apply guarded_bind_name | tauto].
    apply guarded_on_mem, getattr_respects.
Qed.

(** An executable statement whose names can be read and whose store, if it
    is one, is into an allowed attribute. *)
Lemma exec_guarded s :
  executable s = true ->
  (forall a, a ∈ stored s -> A a) ->
  guarded (fun x => x ∈ uses s) [] (binds s) (stored s) (exec L s).
Proof using R_refl R_trans E_after E_name R_store import_ok getattr_ok
  call_ok binop_ok magic_ok.
  set (X := fun x => x ∈ uses s).
  destruct s as [md asname | md ns | tgt e | | e | c n l | | | | | | | | |];
    intros Hs Ha; cbn in Hs; try discriminate Hs; cbn [exec binds stored].
  - destruct asname as [a |].
    + apply (guarded_bind X X [] [] [] [a] [] []);
        [apply guarded_import | intros v; apply guarded_bind_name | tauto].
    + apply (guarded_bind X X [] [] [] [module_root md] [] []);
        [apply guarded_import | intros _ | tauto].
      apply (guarded_bind X X [] [] [] [module_root md] [] []);
        [apply guarded_import | intros v; apply guarded_bind_name | tauto].
  - apply (guarded_bind X X [] [] [] ns [] []);
      [apply guarded_import | intros v; apply guarded_import_names | tauto].
  - destruct tgt as [x | o a |]; try discriminate.
    + apply (guarded_bind X X [] [] [] [x] [] []);
        [| intros v; apply guarded_bind_name | tauto].
      apply guarded_eval_in; [exact Hs |].
      intros y Hy. eapply name_of_statement; [left; reflexivity | exact Hy].
    + apply andb_true_iff in Hs as [He Ho].
      apply (guarded_bind X X [] [] [] [] [] [a]); [| intros v | tauto].
      { apply guarded_eval_in; [exact He |].
        intros y Hy. eapply name_of_statement; [left; reflexivity | exact Hy]. }
      apply (guarded_bind X X [] [] [] [] [] [a]); [| intros ov | tauto].
      { apply guarded_eval_in; [exact Ho |].
        intros y Hy. eapply name_of_statement; [right; left; reflexivity | exact Hy]. }
      apply guarded_setattr, Ha. left.
  - apply (guarded_bind X X [] [] [] [] [] []);
      [| intros v; apply guarded_ret | tauto].
    apply guarded_eval_in; [exact Hs |].
    intros y Hy. eapply name_of_statement; [left; reflexivity | exact Hy].
  - destruct c; [discriminate Hs |].
    apply (guarded_bind X X [] [] [] [] [] []);
      [apply guarded_magic | intros v; apply guarded_ret | tauto].
Qed.

(** A piece of executable code, each statement reading only names bound
    before it (or in [bound]) and storing only into allowed attributes. *)
Lemma run_guarded p :
  forallb (fun ls => executable (snd ls)) p = true ->
  (forall a, a ∈ flat_map stored (map snd p) -> A a) ->
  forall bound, scoped bound (map snd p) = true ->
    guarded (fun x => x ∈ bound) (map fst p) (flat_map binds (map snd p))
      (flat_map stored (map snd p)) (run L p).
Proof using R_refl R_trans E_after E_name R_store import_ok getattr_ok
  call_ok binop_ok magic_ok.
  induction p as [| [ln s] p IH]; intros Hp HA bound Hsc.
  - apply guarded_ret.
  - simpl in Hp, Hsc. apply andb_true_iff in Hp as [Hs Hp].
    apply andb_true_iff in Hsc as [Huses Hrest].
    apply (guarded_bind (fun x => x ∈ bound) (fun x => x ∈ binds s ++ bound)
             [ln] (map fst p) (binds s) (flat_map binds (map snd p))
             (stored s) (flat_map stored (map snd p))).
    + apply (guarded_bind (fun x => x ∈ bound) (fun x => x ∈ bound)
               [ln] [] [] (binds s) [] (stored s));
        [apply guarded_log | intros _ | tauto].
      apply guarded_reads with (X := fun x => x ∈ uses s).
      * apply exec_guarded; [exact Hs |].
        intros a Ha. apply HA. simpl. apply elem_of_app. left. exact Ha.
      * intros x Hx. apply (forallb_elem_of _ _ Huses) in Hx.
        apply bool_decide_eq_true in Hx. exact Hx.
    + intros _. apply IH; [exact Hp | | exact Hrest].
      intros a Ha. apply HA. simpl. apply elem_of_app. right. exact Ha.
    + intros x Hx. apply elem_of_app in Hx. tauto.
Qed.

(** *** Cells *)

Lemma cells_outcome_nil s : cells_outcome [] s (Ok tt s).
Proof using R_refl.
  exists [], []. simpl. rewrite !app_nil_r.
  split; [reflexivity |]. split; [reflexivity |]. split; [reflexivity |].
  split; [constructor |]. split; [apply grows_refl |].
  split; [apply carried_done, R_refl | reflexivity].
Qed.

(** The cells [nb1] went through; [nb2] follows. *)
Lemma cells_outcome_app nb1 nb2 s s1 r :
  cells_outcome nb1 s (Ok tt s1) -> cells_outcome nb2 s1 r ->
  cells_outcome (nb1 ++ nb2) s r.
Proof using R_trans E_after.
  intros (sh1 & t1 & Hsh1 & Ht1 & Hsub1 & Hm1 & Hg1 & Hc1 & Hall1)
         (sh2 & t2 & Hsh2 & Ht2 & Hsub2 & Hm2 & Hg2 & H2).
  simpl in Hsh1, Ht1, Hg1.
  exists (sh1 ++ sh2), (t1 ++ t2).
  unfold statement_lines, magic_lines, magic_stored, plain_stored, tracebacks in *.
  rewrite !flat_map_app, !omap_app.
  split; [rewrite Hsh2, Hsh1, app_assoc; reflexivity |].
  split; [rewrite Ht2, Ht1, app_assoc; reflexivity |].
  split; [apply sublist_app; assumption |].
  split.
  { apply Forall_app. split; (eapply Forall_impl; [eassumption |]);
      intros p Hp; apply elem_of_app; [left | right]; exact Hp. }
  split; [eapply grows_trans; eassumption |].
  assert (Hc1' : carried (flat_map (fun c => match magic_head c with
                                             | Some _ => flat_map stored (code_stmts c)
                                             | None => []
                                             end) nb1 ++
                          flat_map (fun c => match magic_head c with
                                             | Some _ => flat_map stored (code_stmts c)
                                             | None => []
                                             end) nb2)
                   (memory s)
                   (omap (fun p => match snd p with
                                   | Traceback e => Some e
                                   | Declined => None
                                   end) sh1)
                   (memory s1)).
  { eapply carried_mono; [| exact Hc1]. intros a Ha. apply elem_of_app. left. exact Ha. }
  destruct r as [[] s2 | e s2]; simpl in *.
  - destruct H2 as [Hc2 Hall2]. split.
    + eapply carried_app; [exact Hc1' |].
      eapply carried_mono; [| exact Hc2]. intros a Ha. apply elem_of_app. right. exact Ha.
    + intros Hnil. apply app_eq_nil in Hnil as [-> ->].
      rewrite Hall1, Hall2; reflexivity.
  - destruct H2 as (m1 & Hc2 & Hraise). exists m1. split.
    + eapply carried_app; [exact Hc1' |].
      eapply carried_mono; [| exact Hc2]. intros a Ha. apply elem_of_app. right. exact Ha.
    + eapply raising_mono; [| exact Hraise]. intros a Ha. apply elem_of_app. right. exact Ha.
Qed.

(** The cells [nb1] ended with an exception; [nb2] is not run. *)
Lemma cells_outcome_stop nb1 nb2 s e s1 :
  cells_outcome nb1 s (Exc e s1) -> cells_outcome (nb1 ++ nb2) s (Exc e s1).
Proof.
  intros (sh1 & t1 & Hsh1 & Ht1 & Hsub1 & Hm1 & Hg1 & m1 & Hc1 & Hraise).
  exists sh1, t1.
  unfold statement_lines, magic_lines, magic_stored, plain_stored in *.
  rewrite !flat_map_app, !omap_app.
  split; [exact Hsh1 |]. split; [exact Ht1 |].
  split; [apply sublist_inserts_r, Hsub1 |].
  split.
  { eapply Forall_impl; [exact Hm1 |]. intros p Hp. apply elem_of_app. left. exact Hp. }
  split; [exact Hg1 |]. exists m1. split.
  - eapply carried_mono; [| exact Hc1]. intros a Ha. apply elem_of_app. left. exact Ha.
  - eapply raising_mono; [| exact Hraise]. intros a Ha. apply elem_of_app. left. exact Ha.
Qed.

(** One cell.  When it completes, the names the following cells may rely on
    can be read. *)
Lemma run_cell_guarded c bound s :
  forallb (fun ls => executable (snd ls)) (cell_code c) = true ->
  (forall a, a ∈ flat_map stored (code_stmts c) -> A a) ->
  scoped bound (code_stmts c) = true ->
  (forall x, x ∈ bound -> readable (env s) x) ->
  exists r, run_cell L c s = Some r
    /\ cells_outcome [c] s r
    /\ forall s', r = Ok tt s' ->
         forall x, x ∈ match magic_head c with
                       | Some _ => bound
                       | None => flat_map binds (code_stmts c) ++ bound
                       end -> readable (env s') x.
Proof using R_refl R_trans E_after E_name R_store import_ok getattr_ok
  call_ok binop_ok magic_ok.
  intros Hex HA Hsc Hb.
  unfold cells_outcome, statement_lines, magic_lines, magic_stored, plain_stored,
    cell_lines, magic_line, run_cell, code_stmts, cell_code in *.
  simpl flat_map. simpl omap.
  destruct (magic_head c) as [[[[ln n] l] body] |] eqn:Hh; simpl.
  - rewrite bind_eq. cbn [log]. rewrite bind_eq.
    destruct (guarded_magic (fun x => x ∈ bound) true n l body
                (State (env s) (memory s) (trace s ++ [ln]) (shown s)))
      as [[v s1 | e s1] [-> (Hsh1 & Hg1 & H1)]]; [exact Hb | |];
      simpl in Hsh1, Hg1, H1.
    + destruct H1 as (Ht1 & HR1 & _). rewrite app_nil_r in Ht1.
      destruct v.
      * destruct (run_guarded (magic_code n body) Hex HA bound Hsc s1)
          as [r [Hr (Hsh2 & Hg2 & H2)]].
        { intros x Hx. eapply readable_grows; [exact Hg1 | apply Hb, Hx]. }
        unfold in_shell. rewrite Hr.
        destruct r as [[] s2 | e s2]; simpl in Hsh2, Hg2, H2.
        -- destruct H2 as (Ht2 & HR2 & Hb2).
           eexists; split; [reflexivity |]. split.
           ++ exists [], (ln :: map fst (magic_code n body)). simpl.
              rewrite !app_nil_r.
              split; [congruence |].
              split; [rewrite Ht2, Ht1, <- app_assoc; reflexivity |].
              split; [reflexivity |]. split; [constructor |].
              split; [exact (grows_trans _ _ _ Hg1 Hg2) |].
              split; [apply carried_done; eauto | reflexivity].
           ++ intros s' [= <-] x Hx.
              eapply readable_grows; [exact (grows_trans _ _ _ Hg1 Hg2) | apply Hb, Hx].
        -- destruct H2 as ((t & Hpre & Ht2) & Hraise).
           eexists; split; [reflexivity |]. split.
           ++ exists [(ln, Traceback e)], (ln :: t). simpl.
              split; [congruence |].
              split; [rewrite Ht2, Ht1, <- app_assoc; reflexivity |].
              split.
              { rewrite app_nil_r. apply sublist_skip, prefix_is_sublist, Hpre. }
              split; [constructor; [left | constructor] |].
              split; [exact (grows_trans _ _ _ Hg1 Hg2) |].
              split; [| discriminate].
              eapply carried_on; [| apply carried_done, R_refl].
              rewrite app_nil_r. eapply raising_after; eassumption.
           ++ intros s' [= <-] x Hx. simpl.
              eapply readable_grows; [exact (grows_trans _ _ _ Hg1 Hg2) | apply Hb, Hx].
      * eexists; split; [reflexivity |]. split.
        -- exists [(ln, Declined)], [ln]. simpl.
           split; [congruence |]. split; [exact Ht1 |].
           split; [apply sublist_skip, sublist_nil_l |].
           split; [constructor; [left | constructor] |].
           split; [exact Hg1 |].
           split; [apply carried_done, HR1 | discriminate].
        -- intros s' [= <-] x Hx. simpl.
           eapply readable_grows; [exact Hg1 | apply Hb, Hx].
    + destruct H1 as ((t & Hpre & Ht1) & Hraise).
      apply prefix_nil_inv in Hpre as ->. rewrite app_nil_r in Ht1.
      eexists; split; [reflexivity |]. split; [| discriminate].
      exists [], [ln]. simpl. rewrite app_nil_r.
      split; [exact Hsh1 |]. split; [exact Ht1 |].
      split; [apply sublist_skip, sublist_nil_l |]. split; [constructor |].
      split; [exact Hg1 |].
      exists (memory s). split; [apply carried_done, R_refl |].
      eapply raising_mono; [| exact Hraise].
      intros a Ha. apply elem_of_nil in Ha. destruct Ha.
  - destruct (run_guarded (cell_source c) Hex HA bound Hsc s Hb)
      as [r [-> (Hsh & Hg & H)]].
    exists r. split; [reflexivity |].
    destruct r as [[] s1 | e s1]; simpl in Hsh, Hg, H.
    + destruct H as (Ht & HR & Hbs). split.
      * exists [], (map fst (cell_source c)). simpl. rewrite !app_nil_r.
        split; [exact Hsh |]. split; [exact Ht |].
        split; [reflexivity |]. split; [constructor |].
        split; [exact Hg |].
        split; [apply carried_done, HR | reflexivity].
      * intros s' [= <-] x Hx. apply elem_of_app in Hx as [Hx | Hx].
        -- left. left. apply Hbs, Hx.
        -- eapply readable_grows; [exact Hg | apply Hb, Hx].
    + destruct H as ((t & Hpre & Ht) & Hraise). split; [| discriminate].
      exists [], t. simpl. rewrite !app_nil_r.
      split; [exact Hsh |]. split; [exact Ht |].
      split; [apply prefix_is_sublist, Hpre |]. split; [constructor |].
      split; [exact Hg |].
      exists (memory s). split; [apply carried_done, R_refl | exact Hraise].
Qed.

(** All cells of a notebook. *)
Lemma run_all_guarded nb :
  runnable nb = true ->
  (forall c a, c ∈ nb -> a ∈ flat_map stored (code_stmts c) -> A a) ->
  forall bound s,
    scoped_cells bound nb = true ->
    (forall x, x ∈ bound -> readable (env s) x) ->
    exists r, run_all L nb s = Some r /\ cells_outcome nb s r.
Proof using R_refl R_trans E_after E_name R_store import_ok getattr_ok
  call_ok binop_ok magic_ok.
  induction nb as [| c nb IH]; intros Hrun HA bound s Hsc Hb.
  - exists (Ok tt s). split; [reflexivity | apply cells_outcome_nil].
  - simpl in Hrun, Hsc. apply andb_true_iff in Hrun as [Hc Hrun].
    apply andb_true_iff in Hsc as [Hsc Hrest].
    rewrite run_all_cons.
    destruct (run_cell_guarded c bound s Hc) as [r1 [-> [H1 Hnext]]];
      [intros a Ha; apply (HA c); [left | exact Ha] | exact Hsc | exact Hb |].
    destruct r1 as [[] s1 | e s1].
    + destruct (IH Hrun (fun c' a Hc' => HA c' a (list_elem_of_further _ _ _ Hc'))
                  _ s1 Hrest (Hnext s1 eq_refl)) as [r [-> H2]].
      exists r. split; [reflexivity |].
      apply (cells_outcome_app [c] nb s s1 r H1 H2).
    + eexists; split; [reflexivity |].
      apply (cells_outcome_stop [c] nb s e s1 H1).
Qed.
End Guarded.

(** ** Recording what the libraries raise changes nothing else *)

Section Simulation.
Context {S S' : Type} (phi : S' -> S).

Lemma simulates_ret {A} (a : A) : simulates phi (ret a) (ret a).
Proof. intros s'. reflexivity. Qed.

Lemma simulates_bind {A B} (c' : comp S' A) (c : comp S A)
    (k' : A -> comp S' B) (k : A -> comp S B) :
  simulates phi c' c -> (forall a, simulates phi (k' a) (k a)) ->
  simulates phi (bind c' k') (bind c k).
Proof.
  intros Hc Hk s'. unfold bind. rewrite (Hc s').
  destruct (c' s') as [[a s1 | e s1] |]; simpl; [apply Hk | reflexivity..].
Qed.

Lemma simulates_mapM {A B} (f' : A -> comp S' B) (f : A -> comp S B) l :
  Forall (fun a => simulates phi (f' a) (f a)) l ->
  simulates phi (mapM f' l) (mapM f l).
Proof.
  induction 1 as [| a l Ha _ IH]; simpl; [apply simulates_ret |].
  apply simulates_bind; [exact Ha | intros b].
  apply simulates_bind; [exact IH | intros bs; apply simulates_ret].
Qed.

Lemma simulates_block {A} (f' : A -> comp S' unit) (f : A -> comp S unit) l :
  Forall (fun a => simulates phi (f' a) (f a)) l ->
  simulates phi (block f' l) (block f l).
Proof.
  induction 1 as [| a l Ha _ IH]; simpl; [apply simulates_ret |].
  apply simulates_bind; [exact Ha | intros _; exact IH].
Qed.
End Simulation.

Section Logged.
Context {W : Type} (L : library W).

Lemma inner_eta (m : mem W) x : inner (Mem (heap m) (world m, x)) = m.
Proof. destruct m; reflexivity. Qed.

Lemma recording_simulates {A} (f : mem W -> result (mem W) A) :
  simulates inner (external (recording f)) (external f).
Proof.
  intros m'. unfold external, recording. simpl.
  destruct (f (inner m')) as [a m1 | e m1]; simpl; rewrite inner_eta; reflexivity.
Qed.

Lemma getattr_simulates v a :
  simulates inner (getattr (logged L) v a) (getattr L v a).
Proof.
  intros m'. unfold getattr.
  pose proof (recording_simulates (lib_getattr L v a) m') as Hlib.
  unfold external in Hlib. simpl in Hlib.
  destruct v; simpl; try exact Hlib.
  destruct (heap m' !! (l, a)); [reflexivity | exact Hlib].
Qed.

Lemma setattr_simulates o a v :
  simulates inner (setattr (W := W * list exn) o a v) (setattr o a v).
Proof. intros m'. destruct o; reflexivity. Qed.

Lemma lookup_name_simulates rho x :
  simulates inner (lookup_name (logged L) rho x) (lookup_name L rho x).
Proof.
  intros m'. unfold lookup_name. simpl.
  destruct (rho !! x); [reflexivity |]. destruct (lib_builtin L x); reflexivity.
Qed.

Lemma eval_simulates e rho :
  simulates inner (eval (logged L) e rho) (eval L e rho).
Proof.
  revert rho.
  induction e as [x | | | | | es IH | es IH | v a IH | f args kw IHf IHargs IHkw
                 | l op r IHl IHr | | | |] using expr_induction;
    simpl; intros rho; try (intros m'; reflexivity).
  - apply lookup_name_simulates.
  - apply simulates_bind; [| intros; apply simulates_ret].
    apply simulates_mapM. eapply Forall_impl; [exact IH |]. simpl; auto.
  - apply simulates_bind; [| intros; apply simulates_ret].
    apply simulates_mapM. eapply Forall_impl; [exact IH |]. simpl; auto.
  - apply simulates_bind; [apply IH | intros; apply getattr_simulates].
  - apply simulates_bind; [apply IHf | intros fv].
    apply simulates_bind; [| intros vs].
    { apply simulates_mapM. eapply Forall_impl; [exact IHargs |]. simpl; auto. }
    apply simulates_bind; [| intros kvs; apply recording_simulates].
    apply simulates_mapM. eapply Forall_impl; [exact IHkw |].
    simpl. intros [k e'] IHe'.
    apply simulates_bind; [apply IHe' | intros; apply simulates_ret].
  - apply simulates_bind; [apply IHl | intros lv].
    apply simulates_bind; [apply IHr | intros rv; apply recording_simulates].
Qed.

Lemma on_mem_simulates {A} (c' : comp (mem (W * list exn)) A) (c : comp (mem W) A) :
  simulates inner c' c -> simulates forget (on_mem c') (on_mem c).
Proof.
  intros Hc s'. unfold on_mem. simpl. rewrite (Hc (memory s')).
  destruct (c' (memory s')) as [[a m | e m] |]; reflexivity.
Qed.

Lemma eval_in_simulates e :
  simulates forget (eval_in (logged L) e) (eval_in L e).
Proof. intros s'. unfold eval_in. apply on_mem_simulates, eval_simulates. Qed.

Lemma bind_name_simulates x v :
  simulates forget (bind_name (W := W * list exn) x v) (bind_name x v).
Proof. intros s'. reflexivity. Qed.

Lemma import_module_simulates md :
  simulates forget (import_module (logged L) md) (import_module L md).
Proof. apply on_mem_simulates, (recording_simulates (lib_import L md)). Qed.

Lemma magic_simulates c n l body :
  simulates forget (magic (logged L) c n l body) (magic L c n l body).
Proof.
  intros s'. unfold magic.
  apply (on_mem_simulates _ _ (recording_simulates (lib_magic L c n l body (env s')))).
Qed.

Lemma exec_simulates s :
  compound s = false -> simulates forget (exec (logged L) s) (exec L s).
Proof.
  destruct s as [md asname | md ns | tgt e | | e | c n l | | | | | | | | |];
    simpl; try discriminate; intros _; try (intros s'; reflexivity).
  - destruct asname as [a |].
    + apply simulates_bind; [apply import_module_simulates |].
      intros; apply bind_name_simulates.
    + apply simulates_bind; [apply import_module_simulates | intros _].
      apply simulates_bind; [apply import_module_simulates |].
      intros; apply bind_name_simulates.
  - apply simulates_bind; [apply import_module_simulates | intros md'].
    apply simulates_block, Forall_forall. intros n _.
    apply simulates_bind; [| intros; apply bind_name_simulates].
    apply on_mem_simulates, getattr_simulates.
  - destruct tgt as [x | o a |]; try (intros s'; reflexivity).
    + apply simulates_bind; [apply eval_in_simulates |].
      intros; apply bind_name_simulates.
    + apply simulates_bind; [apply eval_in_simulates | intros v].
      apply simulates_bind; [apply eval_in_simulates | intros ov].
      apply on_mem_simulates, setattr_simulates.
  - apply simulates_bind; [apply eval_in_simulates | intros; apply simulates_ret].
  - destruct c; [intros s'; reflexivity |].
    apply simulates_bind; [apply magic_simulates | intros; apply simulates_ret].
Qed.

(** Run with or without the record, a piece of code does the same. *)
Lemma run_simulates p :
  Forall (fun ls => compound (snd ls) = false) p ->
  simulates forget (run (logged L) p) (run L p).
Proof.
  intros Hp. apply simulates_block.
  eapply Forall_impl; [exact Hp |]. simpl. intros [ln st] Hst.
  apply simulates_bind; [intros s'; reflexivity | intros _].
  apply exec_simulates, Hst.
Qed.

Lemma in_shell_simulates ln (c' : comp (state (W * list exn)) unit)
    (c : comp (state W) unit) :
  simulates forget c' c -> simulates forget (in_shell ln c') (in_shell ln c).
Proof.
  intros Hc s'. unfold in_shell. rewrite (Hc s').
  destruct (c' s') as [[[] s1 | e s1] |]; reflexivity.
Qed.

Lemma run_cell_simulates c :
  Forall (fun ls => compound (snd ls) = false) (cell_code c) ->
  simulates forget (run_cell (logged L) c) (run_cell L c).
Proof.
  unfold run_cell, cell_code.
  destruct (magic_head c) as [[[[ln n] l] body] |]; intros Hc.
  - apply simulates_bind; [intros s'; reflexivity | intros _].
    apply simulates_bind; [apply magic_simulates | intros v].
    destruct v; [| intros s'; reflexivity].
    apply in_shell_simulates, run_simulates, Hc.
  - apply run_simulates, Hc.
Qed.

(** And so does a notebook. *)
Lemma run_all_simulates nb :
  Forall (fun c => Forall (fun ls => compound (snd ls) = false) (cell_code c)) nb ->
  simulates forget (run_all (logged L) nb) (run_all L nb).
Proof.
  intros Hnb. apply simulates_block.
  eapply Forall_impl; [exact Hnb |]. apply run_cell_simulates.
Qed.

(** What the record shows when code has been carried through the exceptions
    [es], none of them a failed store: exactly [es] more. *)
Lemma carried_record m es m' :
  carried (W := W * list exn) nothing_raised library_raised [] m es m' ->
  raised m' = raised m ++ es.
Proof.
  induction 1 as [m m' H | m e m1 es m' H _ IH].
  - rewrite app_nil_r. exact H.
  - destruct H as [H | [_ (a & Ha & _)]]; [| apply elem_of_nil in Ha; destruct Ha].
    rewrite IH, H, <- app_assoc. reflexivity.
Qed.

Lemma recording_satisfies {A} (f : mem W -> result (mem W) A) m :
  satisfies nothing_raised library_raised m (recording f m).
Proof.
  unfold recording. destruct (f (inner m)); reflexivity.
Qed.
End Logged.

(** * Facts about the notebooks *)

(** ** Deciding a property of every statement by running its check *)

Lemma in_notebooks nb :
  nb ∈ notebooks ->
  nb = nb05_working_with_tabular_data \/ nb = nb09_working_with_large_datasets.
Proof.
  unfold notebooks. rewrite !elem_of_cons, elem_of_nil. tauto.
Qed.

(** For every notebook of the repository. *)
Ltac each_notebook H :=
  apply in_notebooks in H; destruct H as [-> | ->].

Lemma scoped_sound bound p :
  scoped bound p = true ->
  forall pre s post, p = pre ++ s :: post ->
    forall x, x ∈ uses s -> x ∈ bound \/ exists s', s' ∈ pre /\ x ∈ binds s'.
Proof.
  revert bound. induction p as [| s0 p IH]; intros bound Hsc pre s post Hsplit x Hx.
  - destruct pre; discriminate.
  - simpl in Hsc. apply andb_true_iff in Hsc as [Huses Hrest].
    destruct pre as [| s1 pre]; simpl in Hsplit; injection Hsplit as <- ->.
    + left. apply (forallb_elem_of _ _ Huses) in Hx.
      apply bool_decide_eq_true in Hx. exact Hx.
    + destruct (IH _ Hrest pre s post eq_refl x Hx) as [Hb | (s' & Hs' & Hb)].
      * apply elem_of_app in Hb as [Hb | Hb]; [right | left; exact Hb].
        exists s0. split; [left | exact Hb].
      * right. exists s'. split; [right; exact Hs' | exact Hb].
Qed.

Lemma scoped_bound_before_use nb :
  scoped builtins (stmts nb) = true -> bound_before_use nb.
Proof.
  intros Hsc pre ln s post Hsplit x Hx.
  assert (Hst : stmts nb = map snd pre ++ s :: map snd post).
  { unfold stmts. rewrite Hsplit, map_app. reflexivity. }
  destruct (scoped_sound _ _ Hsc _ _ _ Hst x Hx) as [Hb | (s' & Hs' & Hb)];
    [left; exact Hb | right].
  apply list_elem_of_fmap in Hs' as ([ln' s''] & -> & Hin).
  exists ln', s''. split; [exact Hin | exact Hb].
Qed.

Lemma calls_external_sound nb :
  forallb (calls_external_check nb) (calls nb) = true -> calls_external nb.
Proof.
  intros H ln e Hin. apply (forallb_elem_of _ _ H) in Hin.
  unfold calls_external_check in Hin. simpl in Hin.
  destruct (root e) as [x |]; [| discriminate]. exists x. split; [reflexivity |].
  apply orb_true_iff in Hin as [Hin | Hin];
    [apply orb_true_iff in Hin as [Hin | Hin] |];
    apply bool_decide_eq_true in Hin; auto.
Qed.

Lemma pass_through_sound nb :
  forallb (fun ls => bool_decide (kind_of (snd ls) ∈ notebook_kinds)
                     && negb (defines_original (snd ls))) (program nb) = true ->
  pass_through nb.
Proof.
  intros H ln s Hin. apply (forallb_elem_of _ _ H) in Hin. simpl in Hin.
  apply andb_true_iff in Hin as [Hk Hd]. split.
  - apply bool_decide_eq_true in Hk. exact Hk.
  - apply negb_true_iff, Hd.
Qed.

(** ** C1: what the statements are *)

(** C1, as the specification states it, fails.  Line 81 of notebook 05 is the
    bare name [macro], written so that the cell shows the dataset: it imports
    nothing, binds nothing and applies nothing. *)
Lemma C1_display_is_none_of_the_three :
  ~ spec_pass_through nb05_working_with_tabular_data.
Proof.
  intros H. specialize (H 81%nat (SExpr (EName "macro"))).
  assert (Hin : (81%nat, SExpr (EName "macro"))
                  ∈ program nb05_working_with_tabular_data).
  { apply list_elem_of_lookup_2 with (i := 9%nat). reflexivity. }
  apply H in Hin. simpl in Hin. unfold spec_kinds in Hin.
  rewrite !elem_of_cons, elem_of_nil in Hin.
  destruct Hin as [Hk | [Hk | [Hk | []]]]; discriminate Hk.
Qed.

(** C1 (amended): every statement of both notebooks imports a library, binds
    a literal, applies an external function (a library function, a method or
    operator of a library object, or one of the builtins print, len, list,
    range), evaluates a bound name or attribute for display, or is an [opts]
    magic; no statement defines a function, class, loop, conditional or data
    structure; every name read is a builtin or was bound by an earlier
    statement; and every function called hangs off an imported library, a
    value assigned from one, or a builtin. *)
Theorem C1_statements_pass_through nb :
  nb ∈ notebooks ->
  pass_through nb /\ bound_before_use nb /\ calls_external nb.
Proof.
  intros Hnb. each_notebook Hnb; (split; [| split]);
    first [ apply pass_through_sound | apply scoped_bound_before_use
          | apply calls_external_sound ];
    vm_compute; reflexivity.
Qed.

Lemma C1_witness :
  pass_through nb09_working_with_large_datasets
  /\ bound_before_use nb09_working_with_large_datasets
  /\ calls_external nb09_working_with_large_datasets.
Proof.
  apply (C1_statements_pass_through nb09_working_with_large_datasets).
  unfold notebooks. right. left.
Defined.

(** ** Both notebooks are straight-line code *)

Lemma forallb_Forall {A} (f : A -> bool) (l : list A) :
  forallb f l = true -> Forall (fun a => f a = true) l.
Proof.
  intros H. apply Forall_forall. intros a Ha. apply (forallb_elem_of f l H a Ha).
Qed.

Lemma notebooks_straight nb :
  nb ∈ notebooks -> Forall (fun ls => straight (snd ls) = true) (program nb).
Proof.
  intros Hnb.
  each_notebook Hnb; apply (forallb_Forall (fun ls => straight (snd ls)));
    vm_compute; reflexivity.
Qed.


(** ** What every run of a notebook rests on *)

Lemma executable_not_compound s : executable s = true -> compound s = false.
Proof. destruct s; simpl; intros H; try reflexivity; discriminate H. Qed.

Lemma notebooks_runnable nb : nb ∈ notebooks -> runnable nb = true.
Proof. intros Hnb. each_notebook Hnb; vm_compute; reflexivity. Qed.

Lemma notebooks_scoped_cells nb : nb ∈ notebooks -> scoped_cells builtins nb = true.
Proof. intros Hnb. each_notebook Hnb; vm_compute; reflexivity. Qed.

Lemma notebooks_magic_stored nb : nb ∈ notebooks -> magic_stored nb = [].
Proof. intros Hnb. each_notebook Hnb; reflexivity. Qed.

Lemma runnable_not_compound nb :
  runnable nb = true ->
  Forall (fun c => Forall (fun ls => compound (snd ls) = false) (cell_code c)) nb.
Proof.
  intros Hnb. apply Forall_forall. intros c Hc.
  apply (forallb_elem_of _ _ Hnb) in Hc.
  apply Forall_forall. intros ls Hls.
  apply executable_not_compound, (forallb_elem_of _ _ Hc ls Hls).
Qed.

(** The notices a run has added, given what is shown at its end. *)
Lemma new_notices_app {W A} (s : state W) (r : result (state W) A) sh :
  shown (final r) = shown s ++ sh -> new_notices s r = sh.
Proof. intros H. unfold new_notices. rewrite H. apply drop_app_length. Qed.


(** ** C2: failures are not handled *)

(** An exception in the right-hand side of an assignment ends the statement. *)
Lemma assign_raises {W} (L : library W) x rhs (s : state W) e m :
  eval L rhs (env s) (memory s) = Some (Exc e m) ->
  exec L (assign x rhs) s = Some (Exc e (State (env s) m (trace s) (shown s))).
Proof.
  intros He. simpl. unfold bind, eval_in, on_mem. rewrite He. reflexivity.
Qed.

(** A call of [f] on one literal path raises what the library raises. *)
Lemma call_on_path_raises {W} (L : library W) f path rho m fv m1 e m2 :
  eval L f rho m = Some (Ok fv m1) ->
  lib_call L fv [VStr path] [] m1 = Exc e m2 ->
  eval L (call f [EStr path]) rho m = Some (Exc e m2).
Proof.
  intros Hf Hcall. simpl. unfold bind. rewrite Hf. simpl.
  unfold external. rewrite Hcall. reflexivity.
Qed.

(** A method called on a receiver that raises is never reached. *)
Lemma method_on_raising_receiver {W} (L : library W) recv name rho m e m' :
  eval L recv rho m = Some (Exc e m') ->
  eval L (method recv name [] []) rho m = Some (Exc e m').
Proof.
  intros Hr. simpl. unfold bind. rewrite Hr. reflexivity.
Qed.

(** What a handler would do, were there one: the library raises, the record
    shows it, and the code completes all the same with nothing to see.  The
    notebooks hold none. *)
Example handler_would_swallow :
  exists s',
    run (logged toy_no_data)
      [(1%nat, STry [SExpr (call (EName "print") [EStr "../data/macro.csv"])] [])]
      no_data_start = Some (Ok tt s')
    /\ raised (memory s') = [Exn "FileNotFoundError" "../data/macro.csv"]
    /\ shown s' = [].
Proof. eexists. split; [reflexivity | split; reflexivity]. Qed.

(** With a plotting library that has no [BoxWhisker], line 196 of notebook
    05 raises inside the cell of the [%%opts] magic of line 195: the
    traceback is shown, line 198 of that cell is not run, and the run goes
    on with the next cell and completes. *)
Example missing_element_is_shown :
  (fun r => (ended_with r, shown (final r), trace (final r)))
    <$> run_all toy_no_boxwhisker nb05_working_with_tabular_data (initial 100%nat)
  = Some ([], [(195%nat, Traceback (Exn "AttributeError" "BoxWhisker"))],
          [26; 27; 28; 29; 30; 31; 47; 48; 80; 81; 97; 137; 138; 139; 157; 158;
           159; 195; 196; 225; 227; 278; 279; 280; 301; 302; 303]%nat).
Proof. vm_compute. reflexivity. Qed.

Lemma notebook_failures_surface nb : nb ∈ notebooks -> failures_surface nb.
Proof.
  intros Hnb W L s Hbuiltins.
  destruct (run_all_guarded (logged L) nothing_raised library_raised
              (fun _ => False) (fun _ => True))
    with (nb := nb) (bound := builtins) (s := s) as [r [Hrun Hout]].
  - reflexivity.
  - unfold nothing_raised; congruence.
  - unfold nothing_raised, library_raised. intros m1 m2 m3 e H12 H23.
    rewrite H23, H12. reflexivity.
  - intros m x [].
  - reflexivity.
  - intros md m. apply recording_satisfies.
  - intros v a m. apply recording_satisfies.
  - intros f args kw m. apply recording_satisfies.
  - intros op a b m. apply recording_satisfies.
  - intros c n l body ns m. apply recording_satisfies.
  - apply notebooks_runnable, Hnb.
  - intros c a _ _. exact I.
  - apply notebooks_scoped_cells, Hnb.
  - intros x Hx. left. right. apply Hbuiltins, Hx.
  - exists r. split; [exact Hrun |]. split.
    { rewrite (run_all_simulates L nb
                 (runnable_not_compound nb (notebooks_runnable nb Hnb)) s), Hrun.
      reflexivity. }
    destruct Hout as (sh & t & Hsh & _ & _ & Hlines & _ & H).
    unfold seen. rewrite (new_notices_app s r sh Hsh).
    split; [exact Hlines |].
    rewrite (notebooks_magic_stored nb Hnb) in H.
    destruct r as [[] s' | e s']; simpl in *.
    + destruct H as [Hc _]. left. rewrite app_nil_r. apply (carried_record _ _ _ Hc).
    + destruct H as (m1 & Hc & [Hlib | [Hsame Hfail]]);
        apply carried_record in Hc.
      * left. unfold library_raised in Hlib. rewrite Hlib, Hc, <- app_assoc. reflexivity.
      * right. exists e. split; [reflexivity |]. split; [exact Hfail |].
        unfold nothing_raised in Hsame. rewrite Hsame, Hc. reflexivity.
Qed.

(** C2: the notebooks hold no [try], [raise], [with] or class definition,
    and every statement is a simple statement.  Run against any library
    that provides the builtins, from any state of the kernel: the exceptions
    the library calls raised are, one for one and in order, the exceptions
    the run met, unchanged; each of them ended the run or, when it was
    raised in the cell of a [%%opts] magic, was shown as a traceback by the
    shell the magic runs its cell in; the one exception the runtime can add
    is the AttributeError of the store of notebook 09 into something that is
    no object, which ends the run; and keeping the record of what the
    libraries raise does not change the run.  In particular an exception of
    [pd.read_csv('../data/macro.csv')] or of
    [dd.read_parquet('../data/nyc_taxi_hours.parq/')] ends the run with that
    exception at line 47, respectively 104. *)
Theorem C2_failures_propagate_unchanged :
  failure_handlers nb05_working_with_tabular_data = []
  /\ failure_handlers nb09_working_with_large_datasets = []
  /\ (forall nb, nb ∈ notebooks ->
        Forall (fun ls => straight (snd ls) = true) (program nb)
        /\ failures_surface nb)
  /\ plain_stored nb05_working_with_tabular_data = []
  /\ plain_stored nb09_working_with_large_datasets = ["data"]
  /\ magic_lines nb05_working_with_tabular_data = [157; 195; 225; 278; 301]%nat
  /\ magic_lines nb09_working_with_large_datasets = [309%nat]
  /\ (forall W (L : library W) (s0 s1 : state W) fv m1 e m2,
        run_all L (take 3 nb05_working_with_tabular_data) s0 = Some (Ok tt s1) ->
        eval L (EAttribute (EName "pd") "read_csv") (env s1) (memory s1)
          = Some (Ok fv m1) ->
        lib_call L fv [VStr "../data/macro.csv"] [] m1 = Exc e m2 ->
        run_all L nb05_working_with_tabular_data s0
          = Some (Exc e (State (env s1) m2 (trace s1 ++ [47%nat]) (shown s1))))
  /\ (forall W (L : library W) (s0 s1 : state W) fv m1 e m2,
        run_all L (take 5 nb09_working_with_large_datasets) s0 = Some (Ok tt s1) ->
        eval L (EAttribute (EName "dd") "read_parquet") (env s1) (memory s1)
          = Some (Ok fv m1) ->
        lib_call L fv [VStr "../data/nyc_taxi_hours.parq/"] [] m1 = Exc e m2 ->
        run_all L nb09_working_with_large_datasets s0
          = Some (Exc e (State (env s1) m2 (trace s1 ++ [104%nat]) (shown s1)))).
Proof.
  split; [reflexivity |]. split; [reflexivity |].
  split; [intros nb Hnb; split;
          [apply notebooks_straight, Hnb | apply notebook_failures_surface, Hnb] |].
  do 4 (split; [reflexivity |]). split.
  - intros W L s0 s1 fv m1 e m2 Hpre Hf Hcall.
    rewrite <- (take_drop 3 nb05_working_with_tabular_data).
    rewrite run_all_app, Hpre.
    change (drop 3 nb05_working_with_tabular_data)
      with (Markdown
              :: Code [(47%nat, assign "macro_df"
                                  (call (EAttribute (EName "pd") "read_csv")
                                     [EStr "../data/macro.csv"]));
                       (48%nat, SExpr (method (EName "macro_df") "head" [] []))]
              :: drop 5 nb05_working_with_tabular_data).
    rewrite run_all_cons.
    change (run_cell L Markdown s1) with (Some (Ok tt s1)). lazy beta iota.
    rewrite run_all_cons.
    change (run_cell L (Code ?src)) with (run L src).
    rewrite run_cons.
    erewrite assign_raises; [reflexivity |].
    eapply call_on_path_raises; [exact Hf | exact Hcall].
  - intros W L s0 s1 fv m1 e m2 Hpre Hf Hcall.
    rewrite <- (take_drop 5 nb09_working_with_large_datasets).
    rewrite run_all_app, Hpre.
    change (drop 5 nb09_working_with_large_datasets)
      with (Markdown :: Markdown :: Markdown
              :: Code [(104%nat, assign "ddf"
                                   (method
                                      (call (EAttribute (EName "dd") "read_parquet")
                                         [EStr "../data/nyc_taxi_hours.parq/"])
                                      "persist" [] []));
                       (106%nat, SExpr (call (EName "print")
                                          [EBinOp (EStr "%s Rows") Mod
                                             (call (EName "len") [EName "ddf"])]));
                       (107%nat, SExpr (call (EName "print")
                                          [EStr "Columns:";
                                           call (EName "list")
                                             [EAttribute (EName "ddf") "columns"]]))]
              :: drop 9 nb09_working_with_large_datasets).
    rewrite run_all_cons.
    change (run_cell L Markdown s1) with (Some (Ok tt s1)). lazy beta iota.
    rewrite run_all_cons.
    change (run_cell L Markdown s1) with (Some (Ok tt s1)). lazy beta iota.
    rewrite run_all_cons.
    change (run_cell L Markdown s1) with (Some (Ok tt s1)). lazy beta iota.
    rewrite run_all_cons.
    change (run_cell L (Code ?src)) with (run L src).
    rewrite run_cons.
    erewrite assign_raises; [reflexivity |].
    apply method_on_raising_receiver.
    eapply call_on_path_raises; [exact Hf | exact Hcall].
Qed.

(** On a machine without the sample data, notebook 05 ends with the
    library's FileNotFoundError, raised by [pd.read_csv] on line 47, and the
    record holds just that exception. *)
Lemma C2_witness :
  (exists r,
     run_all (logged toy_no_data) nb05_working_with_tabular_data no_data_start = Some r
     /\ run_all toy_no_data nb05_working_with_tabular_data (forget no_data_start)
        = Some (map_state forget r)
     /\ Forall (fun p => fst p ∈ magic_lines nb05_working_with_tabular_data)
          (new_notices no_data_start r)
     /\ (raised (memory (final r))
         = raised (memory no_data_start) ++ seen no_data_start r
         \/ exists e,
              ended_with r = [e]
              /\ store_failed (plain_stored nb05_working_with_tabular_data) e
              /\ raised (memory (final r))
                 = raised (memory no_data_start)
                   ++ tracebacks (new_notices no_data_start r)))
  /\ run_all toy_no_data nb05_working_with_tabular_data (initial 100%nat)
     = Some (Exc (Exn "FileNotFoundError" "../data/macro.csv")
               (State (env after_imports05) (Mem ∅ 107%nat)
                  (trace after_imports05 ++ [47%nat]) (shown after_imports05))).
Proof.
  split.
  - apply (proj2 (proj1 (proj2 (proj2 C2_failures_propagate_unchanged))
                   nb05_working_with_tabular_data
                   ltac:(unfold notebooks; left))
             nat toy_no_data no_data_start).
    intros x Hx. unfold builtins in Hx.
    rewrite !elem_of_cons, elem_of_nil in Hx.
    destruct Hx as [-> | [-> | [-> | [-> | []]]]]; eexists; reflexivity.
  - apply (proj1 (proj2 (proj2 (proj2 (proj2 (proj2 (proj2 (proj2
             C2_failures_propagate_unchanged)))))))
             nat toy_no_data (initial 100%nat) after_imports05
             (VObj 106) (Mem ∅ 107%nat)).
    + vm_compute. reflexivity.
    + vm_compute. reflexivity.
    + vm_compute. reflexivity.
Defined.

(** ** C3: where the inputs come from *)

Lemma none_of_sound {A} `{EqDecision A} (bad l : list A) :
  forallb (fun x => negb (bool_decide (x ∈ bad))) l = true ->
  forall x, x ∈ l -> x ∉ bad.
Proof.
  intros H x Hx Hbad. apply (forallb_elem_of _ _ H) in Hx.
  apply negb_true_iff, bool_decide_eq_false in Hx. exact (Hx Hbad).
Qed.

Lemma magics_are_opts nb :
  forallb (fun ls => match snd ls with
                     | SMagic _ n _ => String.eqb n "opts"
                     | _ => true
                     end) (program nb) = true ->
  forall ln c n l, (ln, SMagic c n l) ∈ program nb -> n = "opts".
Proof.
  intros H ln c n l Hin. apply (forallb_elem_of _ _ H) in Hin.
  simpl in Hin. apply String.eqb_eq, Hin.
Qed.

Lemma file_reads_in_data_dir nb :
  forallb (fun lp => String.prefix data_dir (snd lp)) (file_reads nb) = true ->
  forall ln path, (ln, path) ∈ file_reads nb -> String.prefix data_dir path = true.
Proof. intros H ln path Hin. apply (forallb_elem_of _ _ H (ln, path) Hin). Qed.

(** C3: the only files the notebooks read are [../data/macro.csv] and
    [../data/nyc_taxi_hours.parq/], both under [../data/]; every call is a
    call into an imported library, on a value assigned from one, or of one of
    the builtins print, len, list, range; no builtin input channel (input,
    open, eval, ...) is mentioned, no system module (sys, os, io, socket, ...)
    is imported, and the only magic is [opts]. *)
Theorem C3_inputs_are_files_and_library_calls :
  file_reads nb05_working_with_tabular_data = [(47%nat, "../data/macro.csv")]
  /\ file_reads nb09_working_with_large_datasets
     = [(104%nat, "../data/nyc_taxi_hours.parq/")]
  /\ forall nb, nb ∈ notebooks -> inputs_through_libraries nb.
Proof.
  split; [reflexivity |]. split; [reflexivity |].
  intros nb Hnb. unfold inputs_through_libraries.
  each_notebook Hnb.
  all: split; [apply file_reads_in_data_dir; vm_compute; reflexivity |].
  all: split; [apply calls_external_sound; vm_compute; reflexivity |].
  all: split; [intros x Hx Hbad; revert x Hbad Hx; apply none_of_sound;
               vm_compute; reflexivity |].
  all: split; [| apply magics_are_opts; vm_compute; reflexivity].
  all: intros m Hm; apply list_elem_of_fmap_2 with (f := module_root) in Hm;
       revert Hm; apply none_of_sound; vm_compute; reflexivity.
Qed.

Lemma C3_witness : inputs_through_libraries nb05_working_with_tabular_data.
Proof.
  apply (proj2 (proj2 C3_inputs_are_files_and_library_calls)).
  unfold notebooks. left.
Defined.

(** ** C4: a linear script *)








(** ** C5: no concurrency of the notebooks' own *)

(** C5: neither notebook imports a module for threads, processes or their
    coordination, mentions a name that starts or synchronises one, or holds a
    [with] block or any other compound statement; the modules imported are
    the ten listed; and the calls behind which the libraries work in
    parallel, [persist] and [datashade], are calls into the imported
    libraries. *)
Theorem C5_single_threaded :
  (forall nb, nb ∈ notebooks -> no_concurrency nb)
  /\ imports nb05_working_with_tabular_data
     = ["numpy"; "scipy.stats"; "pandas"; "holoviews"]
  /\ imports nb09_working_with_large_datasets
     = ["pandas"; "holoviews"; "dask.dataframe"; "datashader"; "geoviews";
        "holoviews.operation.datashader"; "datashader.colors"; "geoviews";
        "bokeh.models"]
  /\ map (fun le => (fst le, root (snd le)))
       (calls_named "persist" nb09_working_with_large_datasets)
     = [(104%nat, Some "dd"); (240%nat, Some "selected")]
  /\ (forall ln e, (ln, e) ∈ calls_named "datashade" nb09_working_with_large_datasets ->
        root e = Some "datashade"
        /\ "datashade" ∈ imported_names nb09_working_with_large_datasets).
Proof.
  split; [| split; [reflexivity |]; split; [reflexivity |]; split; [reflexivity |]].
  - intros nb Hnb.
    split; [| split; [| apply notebooks_straight, Hnb]].
    + intros m Hm. apply list_elem_of_fmap_2 with (f := module_root) in Hm.
      revert Hm. each_notebook Hnb; apply none_of_sound; vm_compute; reflexivity.
    + intros x Hx. revert x Hx.
      each_notebook Hnb; apply none_of_sound; vm_compute; reflexivity.
  - intros ln e Hin.
    assert (Hall : forallb (fun le =>
                     match root (snd le) with
                     | Some x => String.eqb x "datashade"
                     | None => false
                     end)
                     (calls_named "datashade" nb09_working_with_large_datasets) = true)
      by (vm_compute; reflexivity).
    apply (forallb_elem_of _ _ Hall) in Hin. simpl in Hin.
    destruct (root e) as [x |]; [| discriminate].
    apply String.eqb_eq in Hin as ->. split; [reflexivity |].
    apply list_elem_of_lookup_2 with (i := 5%nat). reflexivity.
Qed.

Lemma C5_witness : no_concurrency nb09_working_with_large_datasets.
Proof.
  apply (proj1 C5_single_threaded). unfold notebooks. right. left.
Defined.

(** * Further properties of the notebooks *)

Lemma stores_in_notebook nb c a :
  c ∈ nb -> a ∈ flat_map stored (code_stmts c) ->
  a ∈ magic_stored nb ++ plain_stored nb.
Proof.
  intros Hc Ha. apply elem_of_app. unfold magic_stored, plain_stored.
  destruct (magic_head c) eqn:Hh; [left | right];
    apply list_elem_of_In, in_flat_map; exists c;
    (split; [apply list_elem_of_In, Hc | rewrite Hh; apply list_elem_of_In, Ha]).
Qed.

(** Code carried through tracebacks relates its ends as one step does, when
    raising relates them as returning does. *)
Lemma carried_relates {W} (R : mem W -> mem W -> Prop)
    (E : mem W -> exn -> mem W -> Prop) attrs m es m' :
  (forall m1 m2 m3, R m1 m2 -> R m2 m3 -> R m1 m3) ->
  (forall m1 e m2, E m1 e m2 -> R m1 m2) ->
  carried R E attrs m es m' -> R m m'.
Proof.
  intros Htrans HE. induction 1 as [m m' H | m e m1 es m' H _ IH]; [exact H |].
  destruct H as [H | [H _]]; eauto.
Qed.

Lemma toy_leaves_heap : leaves_heap toy.
Proof. repeat split. Qed.

(** X3: run against any library that writes no attribute by itself, from
    any kernel and whether or not the run completes, notebook 05 leaves
    every instance dictionary as it was, and notebook 09 changes at most
    entries of the attribute [data]. *)
Theorem X3_only_data_is_stored :
  forall W (L : library W) nb (s : state W),
    nb ∈ notebooks ->
    leaves_heap L ->
    exists r, run_all L nb s = Some r
      /\ same_heap_outside ["data"] (memory s) (memory (final r))
      /\ (nb = nb05_working_with_tabular_data ->
          heap (memory (final r)) = heap (memory s)).
Proof.
  intros W L nb s Hnb (Himport & Hgetattr & Hcall & Hbinop & Hmagic).
  set (attrs := magic_stored nb ++ plain_stored nb).
  assert (Hrefl : forall m : mem W, same_heap_outside attrs m m)
    by (intros m l a _; reflexivity).
  assert (Htrans : forall m1 m2 m3 : mem W,
             same_heap_outside attrs m1 m2 -> same_heap_outside attrs m2 m3 ->
             same_heap_outside attrs m1 m3).
  { intros m1 m2 m3 H12 H23 l a Ha. rewrite (H23 l a Ha). apply H12, Ha. }
  assert (Hlib : forall B (f : mem W -> result (mem W) B),
             (forall m, heap (final (f m)) = heap m) ->
             forall m, satisfies (same_heap_outside attrs)
                         (fun m _ m' => same_heap_outside attrs m m') m (f m)).
  { intros B f Hf m. specialize (Hf m).
    destruct (f m) as [b m' | e m']; simpl in *; intros l a _; rewrite Hf; reflexivity. }
  destruct (run_all_guarded L (same_heap_outside attrs)
              (fun m _ m' => same_heap_outside attrs m m')
              (fun _ => True) (fun a => a ∈ attrs))
    with (nb := nb) (bound := builtins) (s := s) as [r [Hr Hout]].
  - exact Hrefl.
  - exact Htrans.
  - intros m1 m2 m3 _. apply Htrans.
  - intros m x _. apply Hrefl.
  - intros m l a v Ha l' a' Ha'. simpl. apply lookup_insert_ne. congruence.
  - intros md. apply Hlib, Himport.
  - intros v a. apply Hlib, Hgetattr.
  - intros f args kw. apply Hlib, Hcall.
  - intros op a b. apply Hlib, Hbinop.
  - intros c n l body ns. apply Hlib, Hmagic.
  - apply notebooks_runnable, Hnb.
  - intros c a. apply stores_in_notebook.
  - apply notebooks_scoped_cells, Hnb.
  - intros x _. right. exact I.
  - exists r. split; [exact Hr |].
    assert (Hframe : same_heap_outside attrs (memory s) (memory (final r))).
    { destruct Hout as (sh & t & _ & _ & _ & _ & _ & H).
      destruct r as [[] s' | e s']; simpl in *.
      - destruct H as [Hc _].
        apply (carried_relates _ _ _ _ _ _ Htrans (fun _ _ _ H => H) Hc).
      - destruct H as (m1 & Hc & Hraise).
        apply (Htrans _ m1).
        + apply (carried_relates _ _ _ _ _ _ Htrans (fun _ _ _ H => H) Hc).
        + destruct Hraise as [H | [H _]]; exact H. }
    split.
    + intros l a Ha. apply Hframe. subst attrs. intros Hin. apply Ha.
      each_notebook Hnb; [apply elem_of_nil in Hin; destruct Hin | exact Hin].
    + intros ->. apply map_eq. intros [l a]. apply Hframe.
      subst attrs. intros Hin. apply elem_of_nil in Hin. exact Hin.
Qed.

Lemma X3_witness :
  exists r, run_all toy nb09_working_with_large_datasets (initial 100%nat) = Some r
    /\ same_heap_outside ["data"] (memory (initial 100%nat)) (memory (final r))
    /\ (nb09_working_with_large_datasets = nb05_working_with_tabular_data ->
        heap (memory (final r)) = heap (memory (initial 100%nat))).
Proof.
  apply X3_only_data_is_stored; [unfold notebooks; right; left | apply toy_leaves_heap].
Defined.


Lemma grouping_check_sound nb :
  forallb (fun c => forallb (grouping_check nb c) (grouped_by c)) (conversions nb) = true ->
  groups_as_written nb.
Proof.
  intros H c Hc g Hg.
  apply (forallb_elem_of _ _ H) in Hc. apply (forallb_elem_of _ _ Hc) in Hg.
  unfold grouping_check in Hg.
  apply andb_true_iff in Hg as [Hg Hk]. apply andb_true_iff in Hg as [Hg Hv].
  apply andb_true_iff in Hg as [Hdk Hdv].
  split; [| split; [| split]].
  - intros ks Hks. rewrite Hks in Hdk. apply bool_decide_eq_true in Hdk. exact Hdk.
  - destruct (written_vdims nb c); [discriminate | reflexivity].
  - apply negb_true_iff, bool_decide_eq_false in Hv. exact Hv.
  - apply negb_true_iff, bool_decide_eq_false in Hk. exact Hk.
Qed.

(** X7: as the notebooks are written, a dimension named by the [groupby] of
    a [.to] conversion is one of the key dimensions written in the
    constructor call of the dataset whenever that call writes key
    dimensions, no constructor call writes value dimensions, and the
    dimension is not also passed as a key or value dimension of the element
    asked for.  In notebook 05 the one non-empty [groupby], ['country'] on
    line 137, is among the written [['country', 'year']]; in notebook 09 the
    one conversion, on line 273, groups by [['dropoff_hour']] a dataset built
    as [hv.Dataset(ddf)], with no dimension written. *)
Theorem X7_grouping_as_written :
  (forall nb, nb ∈ notebooks -> groups_as_written nb)
  /\ grouping_table nb05_working_with_tabular_data
     = [(137%nat, Some ["country"], Some ["country"; "year"]);
        (158%nat, None, Some ["country"; "year"]);
        (196%nat, Some [], Some ["country"; "year"]);
        (227%nat, None, Some ["country"; "year"])]
  /\ grouping_table nb09_working_with_large_datasets
     = [(273%nat, Some ["dropoff_hour"], None)].
Proof.
  split; [| split; vm_compute; reflexivity].
  intros nb Hnb.
  each_notebook Hnb; apply grouping_check_sound; vm_compute; reflexivity.
Qed.

Lemma X7_witness : groups_as_written nb05_working_with_tabular_data.
Proof.
  apply (proj1 X7_grouping_as_written). unfold notebooks. left.
Defined.
